(** * bed: a shallow embedding of the command parser and the REPL of
    [src/main.rs], and its specification.

    Strings are Stdlib byte strings ([String.string]); the model reads them as
    7-bit ASCII text, on which Rust's [str::trim], the regex classes [\s] and
    [\d] and [usize::from_str] agree with the classifiers below.  On other
    text they disagree ([\d] is Unicode aware, [usize::from_str] is not):
    module [Unicode] models [parse_command] on code points.  [usize] is
    the 64-bit unsigned type, modelled as [N] below [2^64]. *)

From Stdlib Require Import Ascii String List NArith Arith Lia Bool.
Import ListNotations.

Open Scope string_scope.

(** ** Outcomes: a Rust computation either returns or panics
    ([unwrap] on [None]/[Err], arithmetic overflow, index out of bounds). *)

Inductive Outcome (A : Type) : Type :=
| Returns (a : A)
| Panics.

Arguments Returns {A} a.
Arguments Panics {A}.

Definition obind {A B} (m : Outcome A) (k : A -> Outcome B) : Outcome B :=
  match m with
  | Returns a => k a
  | Panics => Panics
  end.

Notation "x <- m ;; k" := (obind m (fun x => k))
  (at level 61, m at next level, right associativity).

(** ** Text utilities *)

Module Text.

(** [char::is_whitespace] / regex [\s] on ASCII: \t \n \v \f \r and space. *)
Definition is_ws (c : ascii) : bool :=
  let n := nat_of_ascii c in ((9 <=? n) && (n <=? 13) || (n =? 32))%nat.

(** regex [\d] on ASCII. *)
Definition is_digit (c : ascii) : bool :=
  let n := nat_of_ascii c in ((48 <=? n) && (n <=? 57))%nat.

Fixpoint trim_start (s : string) : string :=
  match s with
  | EmptyString => EmptyString
  | String c r => if is_ws c then trim_start r else s
  end.

Definition trim_end (s : string) : string :=
  string_of_list_ascii (rev (list_ascii_of_string
    (trim_start (string_of_list_ascii (rev (list_ascii_of_string s)))))).

(** [str::trim] *)
Definition trim (s : string) : string := trim_end (trim_start s).

(** [str::contains] for a one-character pattern. *)
Fixpoint contains_char (c : ascii) (s : string) : bool :=
  match s with
  | EmptyString => false
  | String d r => Ascii.eqb c d || contains_char c r
  end.

(** [str::ends_with] for a one-character pattern. *)
Fixpoint ends_with_char (c : ascii) (s : string) : bool :=
  match s with
  | EmptyString => false
  | String d EmptyString => Ascii.eqb c d
  | String _ r => ends_with_char c r
  end.

Fixpoint all_chars (p : ascii -> bool) (s : string) : bool :=
  match s with
  | EmptyString => true
  | String c r => p c && all_chars p r
  end.

(** Longest prefix of characters satisfying [p], and the rest. *)
Fixpoint span (p : ascii -> bool) (s : string) : string * string :=
  match s with
  | EmptyString => (EmptyString, EmptyString)
  | String c r =>
      if p c then let (a, b) := span p r in (String c a, b)
      else (EmptyString, s)
  end.

(** Skip one character if it satisfies [p] (an optional regex atom). *)
Definition skip_opt (p : ascii -> bool) (s : string) : string :=
  match s with
  | String c r => if p c then r else s
  | EmptyString => s
  end.

Definition digit_value (c : ascii) : N := N.of_nat (nat_of_ascii c - 48)%nat.

Fixpoint digits_value (acc : N) (s : string) : N :=
  match s with
  | EmptyString => acc
  | String c r => digits_value (acc * 10 + digit_value c)%N r
  end.

End Text.

Import Text.

(** The line feed, which [read_line] keeps at the end of a line. *)
Definition LF : string := String "010" EmptyString.

(** ** [usize] *)

Definition usize_max : N := (2 ^ 64 - 1)%N.

(** [s.parse::<usize>().unwrap()] on a non-empty run of ASCII digits, which is
    all the regexes of [parse_command] can capture: the parse fails, and the
    [unwrap] panics, exactly when the value does not fit in [usize]. *)
Definition parse_usize_unwrap (s : string) : Outcome N :=
  let v := digits_value 0 s in
  if (v <=? usize_max)%N then Returns v else Panics.

(** ** Commands (enum [BedCommand]); Rust's variant [None] is [CmdNone]. *)

Record Range := { start : N; end_ : N }.

Inductive BedCommand :=
| Quit
| Print (range : Range)
| NPrint (range : Range)
| Move (line : N)
| Change
| CmdNone.

(** ** The four regexes of [parse_command], applied to the trimmed input. *)

(** [^(q|quit)$] *)
Definition quit_re (t : string) : bool := String.eqb t "q" || String.eqb t "quit".

Definition is_pn (c : ascii) : bool := Ascii.eqb c "p" || Ascii.eqb c "n".

Definition opt_capture (s : string) : option string :=
  match s with EmptyString => None | _ => Some s end.

(** The tail [(\s)?(\d+)?(\s)?[pn]$] of the print regex: [Some (group 3)]. *)
Definition print_re_tail (r2 : string) : option string :=
  let r3 := skip_opt is_ws r2 in
  let (d3, r4) := span is_digit r3 in
  match skip_opt is_ws r4 with
  | String c EmptyString => if is_pn c then Some d3 else None
  | _ => None
  end.

(** [^(\d+)?,?(\s)?(\d+)?(\s)?[pn]$]: [Some (group 1, group 3)] on a match.
    The regex crate returns the leftmost-first (backtracking-priority) match;
    every optional atom and every [\d+] is greedy and a greedy choice never
    blocks a match that a shorter choice would allow, so the greedy
    left-to-right scan below finds the same captures
    ([print_re_leftmost_first] below proves it against the regex's
    structure, [print_re_match]). *)
Definition print_re (t : string) : option (option string * option string) :=
  let (d1, r1) := span is_digit t in
  match print_re_tail (skip_opt (fun c => Ascii.eqb c ",") r1) with
  | Some d3 => Some (opt_capture d1, opt_capture d3)
  | None => None
  end.

(** [^(\d+)$] *)
Definition move_re (t : string) : option string :=
  match t with
  | EmptyString => None
  | _ => if all_chars is_digit t then Some t else None
  end.

(** [^c\s*$] *)
Definition change_re (t : string) : bool :=
  match t with
  | String c r => Ascii.eqb c "c" && all_chars is_ws r
  | EmptyString => false
  end.

(** [captures.get(i).map(|m| m.as_str().parse().unwrap())] *)
Definition parse_capture (g : option string) : Outcome (option N) :=
  match g with
  | None => Returns None
  | Some s => v <- parse_usize_unwrap s ;; Returns (Some v)
  end.

Definition unwrap_or (o : option N) (d : N) : N :=
  match o with Some v => v | None => d end.

Definition unknown_command (t : string) : string := "Unknown command: " ++ t.

(** [parse_command(input, current_line, max_line)]: the command and the
    diagnostics written to the error stream. *)
Definition parse_command (input : string) (current_line max_line : N)
  : Outcome (BedCommand * list string) :=
  let input := trim input in
  if quit_re input then Returns (Quit, [])
  else match print_re input with
  | Some (g1, g3) =>
      start <- parse_capture g1 ;;
      end' <- parse_capture g3 ;;
      let range :=
        if contains_char "," input
        then {| start := unwrap_or start 1; end_ := unwrap_or end' max_line |}
        else {| start := unwrap_or start current_line;
                end_ := unwrap_or start current_line |} in
      if ends_with_char "p" input then Returns (Print range, [])
      else if ends_with_char "n" input then Returns (NPrint range, [])
      else Returns (CmdNone, [unknown_command input])
  | None =>
      if change_re input then Returns (Change, [])
      else match move_re input with
      | Some g => line <- parse_usize_unwrap g ;; Returns (Move line, [])
      | None => Returns (CmdNone, [unknown_command input])
      end
  end.

(** ** [parse_command] on Unicode text

    The model above reads the input as ASCII.  A Rust [&str] holds Unicode
    scalar values, and the classifiers involved are Unicode aware: [str::trim]
    and the regex class [\s] use the White_Space property, the regex class
    [\d] is the general category Nd (the decimal digits of every script),
    while [str::parse::<usize>] accepts the ASCII digits only.  This module
    reads the input as a list of code points.  The Nd table, which depends
    on the Unicode version of the regex crate, is the parameter [is_nd]. *)
Module Unicode.

Local Open Scope N_scope.

Definition ustring := list N.

(** The code points of an ASCII string literal. *)
Definition ascii_codes (s : string) : ustring :=
  map (fun c => N.of_nat (nat_of_ascii c)) (list_ascii_of_string s).

(** White_Space: U+0009..U+000D, U+0020, U+0085, U+00A0, U+1680,
    U+2000..U+200A, U+2028, U+2029, U+202F, U+205F and U+3000. *)
Definition is_ws (c : N) : bool :=
  ((9 <=? c) && (c <=? 13)) || (c =? 32) || (c =? 133) || (c =? 160)
  || (c =? 5760) || ((8192 <=? c) && (c <=? 8202)) || (c =? 8232)
  || (c =? 8233) || (c =? 8239) || (c =? 8287) || (c =? 12288).

Definition is_ascii_digit (c : N) : bool := (48 <=? c) && (c <=? 57).

Fixpoint trim_start (s : ustring) : ustring :=
  match s with
  | [] => []
  | c :: r => if is_ws c then trim_start r else s
  end.

Definition trim_end (s : ustring) : ustring := rev (trim_start (rev s)).

(** [str::trim] *)
Definition trim (s : ustring) : ustring := trim_end (trim_start s).

Fixpoint span (p : N -> bool) (s : ustring) : ustring * ustring :=
  match s with
  | [] => ([], [])
  | c :: r => if p c then let (a, b) := span p r in (c :: a, b) else ([], s)
  end.

Definition skip_opt (p : N -> bool) (s : ustring) : ustring :=
  match s with
  | c :: r => if p c then r else s
  | [] => s
  end.

Definition opt_capture (s : ustring) : option ustring :=
  match s with [] => None | _ => Some s end.

(** ['p'] or ['n'] *)
Definition is_pn (c : N) : bool := (c =? 112) || (c =? 110).

(** [^(q|quit)$] *)
Definition quit_re (t : ustring) : bool :=
  if list_eq_dec N.eq_dec t (ascii_codes "q") then true
  else if list_eq_dec N.eq_dec t (ascii_codes "quit") then true else false.

(** [str::contains] and [str::ends_with] for a one-character pattern. *)
Definition contains (c : N) (s : ustring) : bool := existsb (N.eqb c) s.

Definition ends_with (c : N) (s : ustring) : bool :=
  match rev s with x :: _ => N.eqb x c | [] => false end.

(** [char::to_digit(10)], which [usize::from_str] applies to each byte of
    the UTF-8 text: the bytes of a non-ASCII code point are 0x80..0xF4, not
    digits, so the parse fails on them as it fails on the code point. *)
Definition to_digit10 (c : N) : option N :=
  if is_ascii_digit c then Some (c - 48) else None.

(** The digit loop of [from_str_radix]: [checked_mul], then [checked_add]. *)
Fixpoint usize_digits (acc : N) (s : ustring) : option N :=
  match s with
  | [] => Some acc
  | c :: rest =>
      match to_digit10 c with
      | None => None
      | Some d =>
          if (acc * 10 <=? usize_max)%N then
            if (acc * 10 + d <=? usize_max)%N
            then usize_digits (acc * 10 + d) rest
            else None
          else None
      end
  end.

(** [usize::from_str]: empty and a lone sign are errors; a leading ['+'] is
    skipped (a ['-'] is not a digit). *)
Definition usize_from_str (src : ustring) : option N :=
  match src with
  | [] => None
  | c :: rest =>
      if ((c =? 43) || (c =? 45)) && match rest with [] => true | _ => false end
      then None
      else if c =? 43 then usize_digits 0 rest
      else usize_digits 0 src
  end.

(** [s.parse::<usize>().unwrap()] *)
Definition parse_usize_unwrap (s : ustring) : Outcome N :=
  match usize_from_str s with
  | Some v => Returns v
  | None => Panics
  end.

Definition parse_capture (g : option ustring) : Outcome (option N) :=
  match g with
  | None => Returns None
  | Some s => v <- parse_usize_unwrap s ;; Returns (Some v)
  end.

Definition unknown_command (t : ustring) : ustring :=
  app (ascii_codes "Unknown command: ") t.

(** The value of a run of ASCII digits. *)
Fixpoint dec_value (acc : N) (s : ustring) : N :=
  match s with
  | [] => acc
  | c :: r => dec_value (acc * 10 + (c - 48))%N r
  end.

(** A captured number that [usize::from_str] rejects: it holds a character
    other than an ASCII digit, or its value exceeds [usize::MAX]. *)
Definition invalid_usize (g : ustring) : Prop :=
  (exists c, In c g /\ is_ascii_digit c = false) \/ usize_max < dec_value 0 g.

(** The first code point, if any, fails [p]. *)
Definition head_not (p : N -> bool) (r : ustring) : Prop :=
  match r with [] => True | c :: _ => p c = false end.

(** Length of a capture, [0] when the group did not participate. *)
Definition cap_len (g : option ustring) : nat :=
  match g with None => 0%nat | Some d => length d end.

Section Regexes.

Variable is_nd : N -> bool.

(** The tail [(\s)?(\d+)?(\s)?[pn]$] of the print regex. *)
Definition print_re_tail (r2 : ustring) : option ustring :=
  let r3 := skip_opt is_ws r2 in
  let (d3, r4) := span is_nd r3 in
  match skip_opt is_ws r4 with
  | [c] => if is_pn c then Some d3 else None
  | _ => None
  end.

(** [^(\d+)?,?(\s)?(\d+)?(\s)?[pn]$], greedy as the ASCII [print_re]. *)
Definition print_re (t : ustring) : option (option ustring * option ustring) :=
  let (d1, r1) := span is_nd t in
  match print_re_tail (skip_opt (N.eqb 44) r1) with
  | Some d3 => Some (opt_capture d1, opt_capture d3)
  | None => None
  end.

(** [^(\d+)$] *)
Definition move_re (t : ustring) : option ustring :=
  match t with
  | [] => None
  | _ => if forallb is_nd t then Some t else None
  end.

(** [^c\s*$] *)
Definition change_re (t : ustring) : bool :=
  match t with
  | c :: r => (c =? 99) && forallb is_ws r
  | [] => false
  end.

(** [parse_command(input, current_line, max_line)] *)
Definition parse_command (input : ustring) (current_line max_line : N)
  : Outcome (BedCommand * list ustring) :=
  let input := trim input in
  if quit_re input then Returns (Quit, [])
  else match print_re input with
  | Some (g1, g3) =>
      start <- parse_capture g1 ;;
      end' <- parse_capture g3 ;;
      let range :=
        if contains 44 input
        then {| start := unwrap_or start 1; end_ := unwrap_or end' max_line |}
        else {| start := unwrap_or start current_line;
                end_ := unwrap_or start current_line |} in
      if ends_with 112 input then Returns (Print range, [])
      else if ends_with 110 input then Returns (NPrint range, [])
      else Returns (CmdNone, [unknown_command input])
  | None =>
      if change_re input then Returns (Change, [])
      else match move_re input with
      | Some g => line <- parse_usize_unwrap g ;; Returns (Move line, [])
      | None => Returns (CmdNone, [unknown_command input])
      end
  end.

Definition opt_list (o : option N) : ustring :=
  match o with Some c => [c] | None => [] end.

Definition opt_ws (o : option N) : bool :=
  match o with Some c => is_ws c | None => true end.

(** The print regex as a relation: [t] is [(\d+)?,?(\s)?(\d+)?(\s)?[pn]]
    with the given captures. *)
Inductive print_re_match (t : ustring) : option ustring -> option ustring -> Prop :=
| print_re_match_intro (s1 s3 : ustring) (comma : bool) (w1 w2 : option N) (x : N) :
    forallb is_nd s1 = true -> forallb is_nd s3 = true ->
    opt_ws w1 = true -> opt_ws w2 = true -> is_pn x = true ->
    t = app s1 (app (if comma then [44%N] else []) (app (opt_list w1)
          (app s3 (app (opt_list w2) [x])))) ->
    print_re_match t (opt_capture s1) (opt_capture s3).

(** [g] is a number the regexes capture from the trimmed input [t]: group 1
    or 3 of the print regex, or the group of the move regex, which is only
    tried when the print regex does not match. *)
Definition captured (t g : ustring) : Prop :=
  (exists g1 g3, print_re t = Some (g1, g3) /\ (g1 = Some g \/ g3 = Some g))
  \/ (print_re t = None /\ move_re t = Some g).

End Regexes.

(** A part of the Nd table: the ASCII digits and the Arabic-Indic digits
    U+0660..U+0669. *)
Definition nd_sample (c : N) : bool :=
  is_ascii_digit c || ((1632 <=? c) && (c <=? 1641)).

End Unicode.

(** ** The text buffer: a [crop::Rope], modelled by the text it holds.

    [Rope::line_len] counts the line breaks, plus one for a last line that is
    not terminated (an empty rope has no line); [Rope::line(i)] is the [i]-th
    line without its line break ("\n" or "\r\n") and panics when
    [i >= line_len]. *)

Module Rope.

Definition CR : ascii := "013".

Fixpoint split_lines_aux (cur : string) (s : string) : list string :=
  match s with
  | EmptyString => [cur]
  | String c r =>
      if Ascii.eqb c "010" then cur :: split_lines_aux EmptyString r
      else split_lines_aux (cur ++ String c EmptyString) r
  end.

(** The pieces between line feeds. *)
Definition split_lines (s : string) : list string := split_lines_aux EmptyString s.

Fixpoint line_breaks (s : string) : nat :=
  match s with
  | EmptyString => 0
  | String c r => (if Ascii.eqb c "010" then 1 else 0) + line_breaks r
  end.

Definition line_len (s : string) : N :=
  match s with
  | EmptyString => 0%N
  | _ => N.of_nat (line_breaks s + (if ends_with_char "010" s then 0 else 1))
  end.

Definition strip_cr (l : string) : string :=
  if ends_with_char CR l
  then substring 0 (String.length l - 1) l
  else l.

(** The pieces without their line breaks: a piece followed by a line feed
    loses a [CR] just before it ("\r\n"); the last piece, which no line
    feed follows, is kept as it is. *)
Fixpoint strip_breaks (ps : list string) : list string :=
  match ps with
  | [] => []
  | [p] => [p]
  | p :: rest => strip_cr p :: strip_breaks rest
  end.

Definition line (s : string) (i : N) : Outcome string :=
  if (i <? line_len s)%N
  then Returns (nth (N.to_nat i) (strip_breaks (split_lines s)) EmptyString)
  else Panics.

(** The buffer as the list of its lines [line(0) .. line(line_len - 1)]. *)
Definition lines (s : string) : list string :=
  firstn (N.to_nat (line_len s)) (strip_breaks (split_lines s)).

End Rope.

(** ** Decimal rendering of [usize] ([ToString], [{}] formatting). *)

Definition digit_char (d : N) : ascii := ascii_of_N (48 + d).

Fixpoint decimal_aux (fuel : nat) (n : N) (acc : string) : string :=
  match fuel with
  | O => acc
  | S f =>
      let acc' := String (digit_char (n mod 10)) acc in
      if (n <? 10)%N then acc' else decimal_aux f (n / 10) acc'
  end.

Definition to_string (n : N) : string := decimal_aux (S (N.to_nat (N.size n))) n EmptyString.

Fixpoint spaces (k : nat) : string :=
  match k with O => EmptyString | S k' => String " " (spaces k') end.

(** [format!("{:width$}", n)]: numbers are right-aligned, padded with blanks
    up to at least [width] characters. *)
Definition fmt_width (width : nat) (n : N) : string :=
  let s := to_string n in spaces (width - String.length s) ++ s.

(** ** Editor state and the REPL of [main] *)

Record BedState := { content : string; current_line : N }.

(** [state.current_line = state.content.line_len()] right after loading. *)
Definition init_state (file : string) : BedState :=
  let state := {| content := file; current_line := 0 |} in
  {| content := content state; current_line := Rope.line_len (content state) |}.

(** [stdin().read_line]: the next line with its line feed, [""] at the end
    of the input. *)
Definition read_line (stdin : list string) : string * list string :=
  match stdin with
  | [] => (EmptyString, [])
  | l :: rest => (l, rest)
  end.

(** ["\x1b[0m"] *)
Definition RESET : string := String "027" "[0m".

(** [" │ "], the box-drawing bar U+2502 in UTF-8. *)
Definition SEP : string := " " ++ String "226" (String "148" (String "130" " ")).

(** [(range.start - 1)]: [usize] subtraction, which panics on underflow
    (Rust's overflow check, on in the default debug profile). *)
Definition sub1_usize (n : N) : Outcome N :=
  if (n =? 0)%N then Panics else Returns (n - 1)%N.

(** The result of one pass of the loop: [continue] with the new state, the
    remaining input and what was printed to standard output, or [break]. *)
Inductive Control :=
| Continue (st : BedState) (stdin : list string) (stdout : list string)
| Break.

Section Repl.

(** The syntax highlighter (a [syntect::HighlightLines] created once per
    command), abstracted: [highlight_line] renders one line as escaped
    terminal text ([highlight_line] then [as_24_bit_terminal_escaped]) and
    advances the highlighter's parse state. *)
Variable HL : Type.
Variable highlight_line : HL -> string -> HL * string.

(** The highlighter run over a list of lines, threading its state. *)
Fixpoint hl_run (h : HL) (ls : list string) : list string :=
  match ls with
  | [] => []
  | l :: rest => let (h', escaped) := highlight_line h l in escaped :: hl_run h' rest
  end.

(** The body of [for line in a..a+count { ... }] of [Print]. *)
Fixpoint print_lines (h : HL) (text : string) (line : N) (count : nat)
  : Outcome (list string) :=
  match count with
  | O => Returns []
  | S k =>
      string <- Rope.line text line ;;
      let (h', escaped) := highlight_line h string in
      rest <- print_lines h' text (line + 1) k ;;
      Returns ((escaped ++ LF) :: rest)
  end.

(** The body of the same loop for [NPrint]. *)
Fixpoint nprint_lines (h : HL) (text : string) (width : nat) (line : N) (count : nat)
  : Outcome (list string) :=
  match count with
  | O => Returns []
  | S k =>
      string <- Rope.line text line ;;
      let (h', escaped) := highlight_line h string in
      rest <- nprint_lines h' text width (line + 1) k ;;
      Returns ((fmt_width width (line + 1) ++ SEP ++ escaped ++ LF ++ RESET) :: rest)
  end.

(** The [match command { ... }] of [main], on the highlighter [h] and the
    rest of the standard input. *)
Definition exec_command (h : HL) (state : BedState) (command : BedCommand)
  (stdin : list string) : Outcome Control :=
  match command with
  | CmdNone => Returns (Continue state stdin [])
  | Quit => Returns Break
  | Change =>
      let (new_content, stdin') := read_line stdin in
      Returns (Continue {| content := new_content;
                           current_line := current_line state |} stdin' [])
  | Print range =>
      first <- sub1_usize (start range) ;;
      out <- print_lines h (content state) first (N.to_nat (end_ range - first)) ;;
      Returns (Continue state stdin (out ++ [RESET]))
  | NPrint range =>
      let width := String.length (to_string (Rope.line_len (content state))) in
      first <- sub1_usize (start range) ;;
      out <- nprint_lines h (content state) width first (N.to_nat (end_ range - first)) ;;
      Returns (Continue state stdin out)
  | Move line => Returns (Continue {| content := content state; current_line := line |} stdin [])
  end.

(** One pass of the REPL loop: read a line, build the highlighter
    ([find_syntax_by_extension(ext).unwrap()], [None] when the file's
    extension has no syntax: a panic), parse, execute.  Also returns the
    diagnostics of the parser. *)
Definition step (syntax : option HL) (state : BedState) (stdin : list string)
  : Outcome (Control * list string) :=
  let (input, stdin') := read_line stdin in
  match syntax with
  | None => Panics
  | Some h =>
      pc <- parse_command input (current_line state) (Rope.line_len (content state)) ;;
      let (command, stderr) := pc in
      c <- exec_command h state command stdin' ;;
      Returns (c, stderr)
  end.

End Repl.

(** ** The whole loop of [main]

    [run] iterates the loop for at most [fuel] passes; each pass prints the
    prompt [":"], then does what [step] does.  It stops at [break]
    ([Quitted]) or when the fuel runs out ([Suspended], with the input not
    read yet). *)

Inductive RunResult :=
| Quitted (st : BedState) (stdout stderr : list string)
| Suspended (st : BedState) (stdin : list string) (stdout stderr : list string).

Definition result_state (r : RunResult) : BedState :=
  match r with Quitted st _ _ | Suspended st _ _ _ => st end.

(** Output of earlier passes in front of the result of the later ones. *)
Definition emit (out err : list string) (r : RunResult) : RunResult :=
  match r with
  | Quitted st o e => Quitted st (out ++ o) (err ++ e)
  | Suspended st i o e => Suspended st i (out ++ o) (err ++ e)
  end.

Section Run.

Variable HL : Type.
Variable highlight_line : HL -> string -> HL * string.

Fixpoint run (syntax : option HL) (fuel : nat) (state : BedState) (stdin : list string)
  : Outcome RunResult :=
  match fuel with
  | O => Returns (Suspended state stdin [] [])
  | S f =>
      r <- step HL highlight_line syntax state stdin ;;
      let (c, err) := r in
      match c with
      | Break => Returns (Quitted state [":"] err)
      | Continue state' stdin' out =>
          r' <- run syntax f state' stdin' ;; Returns (emit (":" :: out) err r')
      end
  end.

End Run.

(** ** The theme colours: [hex2color!] *)

Record Color := { r : N; g : N; b : N; a : N }.

(** [char::to_digit(16)] *)
Definition to_digit16 (c : ascii) : option N :=
  let n := nat_of_ascii c in
  let d :=
    if ((48 <=? n) && (n <=? 57))%nat then Some (n - 48)%nat
    else if ((97 <=? n) && (n <=? 122))%nat then Some (n - 87)%nat
    else if ((65 <=? n) && (n <=? 90))%nat then Some (n - 55)%nat
    else None in
  match d with
  | Some v => if (v <? 16)%nat then Some (N.of_nat v) else None
  | None => None
  end.

(** The digit loop of [from_str_radix] for [u8]: [checked_mul] and
    [checked_add] against [u8::MAX]. *)
Fixpoint u8_digits (acc : N) (s : string) : option N :=
  match s with
  | EmptyString => Some acc
  | String c rest =>
      match to_digit16 c with
      | None => None
      | Some d =>
          if (acc * 16 <=? 255)%N then
            if (acc * 16 + d <=? 255)%N then u8_digits (acc * 16 + d) rest else None
          else None
      end
  end.

(** [u8::from_str_radix(src, 16)]: empty is an error, a lone sign is an
    error, a leading [+] is skipped, a [-] is an invalid digit for an
    unsigned type. *)
Definition u8_from_str_radix16 (src : string) : option N :=
  match src with
  | EmptyString => None
  | String c rest =>
      if (Ascii.eqb c "+" || Ascii.eqb c "-") && String.eqb rest EmptyString then None
      else if Ascii.eqb c "+" then u8_digits 0 rest
      else u8_digits 0 src
  end.

(** [&s[i..j]] on an ASCII string: panics past the end. *)
Definition str_slice (s : string) (i j : nat) : Outcome string :=
  if ((i <=? j) && (j <=? String.length s))%nat then Returns (substring i (j - i) s) else Panics.

Definition unwrap_opt (o : option N) : Outcome N :=
  match o with Some v => Returns v | None => Panics end.

Definition hex_component (hex : string) (i j : nat) : Outcome N :=
  s <- str_slice hex i j ;; unwrap_opt (u8_from_str_radix16 s).

(** [hex2color!($hex)]: the fields in the order they are written. *)
Definition hex2color (hex : string) : Outcome Color :=
  r <- hex_component hex 1 3 ;;
  g <- hex_component hex 3 5 ;;
  b <- hex_component hex 5 7 ;;
  Returns {| r := r; g := g; b := b; a := 255 |}.

(** ** The file extension: [args[1].split('.').last().unwrap_or_else(|| "txt")] *)

Fixpoint split_on_aux (sep : ascii) (cur : string) (s : string) : list string :=
  match s with
  | EmptyString => [cur]
  | String c rest =>
      if Ascii.eqb c sep then cur :: split_on_aux sep EmptyString rest
      else split_on_aux sep (cur ++ String c EmptyString) rest
  end.

(** [str::split(sep)] *)
Definition split_on (sep : ascii) (s : string) : list string := split_on_aux sep EmptyString s.

(** [Iterator::last] *)
Fixpoint last_opt {A} (l : list A) : option A :=
  match l with
  | [] => None
  | [x] => Some x
  | _ :: rest => last_opt rest
  end.

Definition file_ext (filename : string) : string :=
  match last_opt (split_on "." filename) with
  | Some e => e
  | None => "txt"
  end.

(** No highlighter: lines are emitted as they are. *)
Definition plain : unit -> string -> unit * string := fun h s => (h, s).

Definition abcde : string :=
  "a" ++ LF ++ "b" ++ LF ++ "c" ++ LF ++ "d" ++ LF ++ "e" ++ LF.

(** A ten-line buffer. *)
Definition ten_lines : string :=
  fold_right (fun l acc => l ++ LF ++ acc) EmptyString
    ["a"; "b"; "c"; "d"; "e"; "f"; "g"; "h"; "i"; "j"].

(** ** Vocabulary of the statements *)

(** The stored lines [i+1 .. i+count] (1-based) of the buffer. *)
Definition slice (text : string) (i count : nat) : list string :=
  map (fun k => nth k (Rope.lines text) EmptyString) (seq i count).

(** The range of a parsed print-family command. *)
Definition range_of (r : Outcome (BedCommand * list string)) : option Range :=
  match r with
  | Returns (Print range, _) | Returns (NPrint range, _) => Some range
  | _ => None
  end.

(** The print regex as written: [t] is [s1 ++ ","? ++ blank? ++ s3 ++ blank?
    ++ x] with [s1], [s3] runs of digits (the optional groups 1 and 3, [None]
    when empty) and [x] one of [p], [n]. *)
Definition opt_char (o : option ascii) : string :=
  match o with None => EmptyString | Some a => String a EmptyString end.

Definition opt_ws (o : option ascii) : bool :=
  match o with None => true | Some a => is_ws a end.

Inductive print_re_match (t : string) : option string -> option string -> Prop :=
| print_re_match_intro (s1 s3 : string) (comma : bool) (w1 w2 : option ascii) (x : ascii) :
    all_chars is_digit s1 = true -> all_chars is_digit s3 = true ->
    opt_ws w1 = true -> opt_ws w2 = true -> is_pn x = true ->
    t = s1 ++ (if comma then "," else EmptyString) ++ opt_char w1 ++ s3 ++ opt_char w2
          ++ String x EmptyString ->
    print_re_match t (opt_capture s1) (opt_capture s3).

(** Length of a capture, [0] when the group did not participate. *)
Definition cap_len (g : option string) : nat :=
  match g with None => 0 | Some d => String.length d end.

(** Decimal width of [n] computed with [fuel] steps. *)
Fixpoint dlen (fuel : nat) (n : N) : nat :=
  match fuel with
  | O => O
  | S f => if (n <? 10)%N then 1 else S (dlen f (n / 10))
  end.

(** The gutter of line [n] followed by the rendered line. *)
Definition numbered (width : nat) (ne : N * string) : string :=
  fmt_width width (fst ne) ++ SEP ++ snd ne ++ LF ++ RESET.

(** The first character, if any, fails [p]. *)
Definition head_not (p : ascii -> bool) (r : string) : Prop :=
  match r with EmptyString => True | String c _ => p c = false end.

(** A run of digits inside the text. *)
Definition digit_run_in (t d : string) : Prop :=
  exists pre post, t = pre ++ d ++ post /\ d <> EmptyString /\ all_chars is_digit d = true.

(** * Properties *)

(** ** Evaluation on small inputs *)

Example parse_ex1 : parse_command ",p" 4 10 = Returns (Print {| start := 1; end_ := 10 |}, []).
Proof. reflexivity. Qed.

Example parse_ex2 : parse_command ("  3,7 n" ++ LF) 4 10 = Returns (NPrint {| start := 3; end_ := 7 |}, []).
Proof. reflexivity. Qed.

Example parse_ex3 : parse_command ("12" ++ LF) 4 10 = Returns (Move 12, []).
Proof. reflexivity. Qed.

Example parse_ex4 : parse_command "99999999999999999999p" 4 10 = Panics.
Proof. vm_compute. reflexivity. Qed.

Example parse_ex5 : parse_command ("c  " ++ LF) 4 10 = Returns (Change, []).
Proof. reflexivity. Qed.

Example parse_ex6 : parse_command "zzz" 4 10 = Returns (CmdNone, ["Unknown command: zzz"]).
Proof. reflexivity. Qed.

Example to_string_ex : to_string 1203 = "1203".
Proof. reflexivity. Qed.

Example fmt_width_ex : fmt_width 3 7 = "  7".
Proof. reflexivity. Qed.

Example lines_ex : Rope.lines abcde = ["a"; "b"; "c"; "d"; "e"].
Proof. reflexivity. Qed.

(** A carriage return is dropped before a line feed, and kept at the end of
    an unterminated last line. *)
Example lines_cr_ex :
  Rope.lines ("a" ++ String "013" LF ++ "b" ++ String "013" EmptyString)
  = ["a"; "b" ++ String "013" EmptyString].
Proof. reflexivity. Qed.

(** The Unicode model: U+3000 and U+2028 are trimmed, U+0663 is a digit of
    the regexes but not of [usize::from_str]. *)
Example unicode_parse_ex1 :
  Unicode.parse_command Unicode.nd_sample [12288; 53; 8232]%N 4 10 = Returns (Move 5, []).
Proof. reflexivity. Qed.

Example unicode_parse_ex2 :
  Unicode.parse_command Unicode.nd_sample [1635]%N 4 10 = Panics.
Proof. reflexivity. Qed.

Example print_ex :
  exec_command _ plain tt {| content := abcde; current_line := 5 |}
    (Print {| start := 2; end_ := 3 |}) []
  = Returns (Continue {| content := abcde; current_line := 5 |} []
       [("b" ++ LF); ("c" ++ LF); RESET]).
Proof. reflexivity. Qed.

(** ** Decimal width *)

Lemma decimal_aux_length : forall f n acc,
  String.length (decimal_aux f n acc) = (dlen f n + String.length acc)%nat.
Proof.
  induction f as [|f IH]; intros n acc; [reflexivity|].
  simpl. destruct (n <? 10)%N; [reflexivity|].
  rewrite IH. simpl. lia.
Qed.

Lemma to_string_length n :
  String.length (to_string n) = dlen (S (N.to_nat (N.size n))) n.
Proof. unfold to_string. rewrite decimal_aux_length. simpl. lia. Qed.

Lemma div10_lt n m : (n / 10 < m)%N -> (n < 10 * m)%N.
Proof.
  intros H. pose proof (N.div_mod n 10 ltac:(lia)).
  pose proof (N.mod_lt n 10 ltac:(lia)). lia.
Qed.

Lemma pow10_S k : (10 ^ N.of_nat (S k) = 10 * 10 ^ N.of_nat k)%N.
Proof. rewrite Nat2N.inj_succ, N.pow_succ_r'. reflexivity. Qed.

(** Fewer digits than [k] for a number below [10^k]. *)
Lemma dlen_le : forall f n k, (1 <= k)%nat -> (n < 10 ^ N.of_nat k)%N -> (dlen f n <= k)%nat.
Proof.
  induction f as [|f IH]; intros n k Hk Hn; simpl; [lia|].
  destruct (n <? 10)%N eqn:E; [lia|].
  apply N.ltb_ge in E.
  destruct k as [|[|k]]; [lia| |].
  - simpl in Hn. lia.
  - assert (n / 10 < 10 ^ N.of_nat (S k))%N.
    { apply N.Div0.div_lt_upper_bound. rewrite <- pow10_S. exact Hn. }
    specialize (IH (n / 10)%N (S k) ltac:(lia) H). lia.
Qed.

(** With enough fuel, a number is below [10] to the power of its width. *)
Lemma dlen_bound : forall f n, (n < 10 ^ N.of_nat f)%N -> (n < 10 ^ N.of_nat (dlen f n))%N.
Proof.
  induction f as [|f IH]; intros n Hn; simpl.
  - simpl in Hn. lia.
  - destruct (n <? 10)%N eqn:E.
    + apply N.ltb_lt in E. simpl. lia.
    + rewrite pow10_S. apply div10_lt. apply IH.
      apply N.Div0.div_lt_upper_bound. rewrite <- pow10_S. exact Hn.
Qed.

Lemma to_string_fuel n : (n < 10 ^ N.of_nat (S (N.to_nat (N.size n))))%N.
Proof.
  rewrite pow10_S, N2Nat.id.
  pose proof (N.size_gt n).
  assert (2 ^ N.size n <= 10 ^ N.size n)%N by (apply N.pow_le_mono_l; lia).
  lia.
Qed.

Lemma dlen_pos f n : (dlen (S f) n >= 1)%nat.
Proof. simpl. destruct (n <? 10)%N; lia. Qed.

(** [to_string().len()] is monotone. *)
Lemma to_string_length_mono a b : (a <= b)%N ->
  (String.length (to_string a) <= String.length (to_string b))%nat.
Proof.
  intros Hab. rewrite !to_string_length.
  apply dlen_le; [apply dlen_pos|].
  pose proof (dlen_bound _ b (to_string_fuel b)). lia.
Qed.

Lemma spaces_length k : String.length (spaces k) = k.
Proof. induction k; simpl; auto. Qed.

Lemma length_append (s t : string) : String.length (s ++ t) = (String.length s + String.length t)%nat.
Proof. induction s; simpl; auto. Qed.

(** A number not above [m] fills exactly a field of [m]'s width. *)
Lemma fmt_width_length n m : (n <= m)%N ->
  String.length (fmt_width (String.length (to_string m)) n) = String.length (to_string m).
Proof.
  intros H. unfold fmt_width. rewrite length_append, spaces_length.
  pose proof (to_string_length_mono n m H). lia.
Qed.

(** ** The rope *)

Module RopeFacts.
Import Rope.

Lemma split_lines_aux_length : forall s cur,
  length (split_lines_aux cur s) = S (line_breaks s).
Proof.
  induction s as [|c s IH]; intros cur; simpl; [reflexivity|].
  destruct (Ascii.eqb c "010"); simpl; rewrite IH; reflexivity.
Qed.

Lemma line_len_le s : (N.to_nat (line_len s) <= S (line_breaks s))%nat.
Proof.
  destruct s as [|c r]; [simpl; lia|].
  unfold line_len. rewrite Nat2N.id.
  destruct (ends_with_char "010" (String c r)); lia.
Qed.

Lemma strip_breaks_length : forall ps, length (strip_breaks ps) = length ps.
Proof.
  induction ps as [|p ps IH]; [reflexivity|].
  destruct ps as [|q ps]; [reflexivity|].
  transitivity (S (length (strip_breaks (q :: ps)))); [reflexivity|].
  rewrite IH. reflexivity.
Qed.

Lemma lines_length s : length (lines s) = N.to_nat (line_len s).
Proof.
  unfold lines. rewrite length_firstn, strip_breaks_length.
  unfold split_lines. rewrite split_lines_aux_length.
  pose proof (line_len_le s). lia.
Qed.

Lemma line_in_range s i : (i < line_len s)%N ->
  line s i = Returns (nth (N.to_nat i) (lines s) EmptyString).
Proof.
  intros H. unfold line. apply N.ltb_lt in H. rewrite H.
  unfold lines. rewrite nth_firstn.
  assert (Hi : (N.to_nat i <? N.to_nat (line_len s))%nat = true).
  { apply Nat.ltb_lt. apply N.ltb_lt in H. lia. }
  rewrite Hi. reflexivity.
Qed.

Lemma line_out_of_range s i : (line_len s <= i)%N -> line s i = Panics.
Proof.
  intros H. unfold line.
  destruct (i <? line_len s)%N eqn:E; [apply N.ltb_lt in E; lia|reflexivity].
Qed.

Lemma ends_with_breaks s : ends_with_char "010" s = true -> (1 <= line_breaks s)%nat.
Proof.
  induction s as [|c r IH]; [discriminate|].
  destruct r as [|d r'].
  - intros H. cbn [ends_with_char] in H. apply Ascii.eqb_eq in H. subst c. simpl. lia.
  - intros H. cbn [ends_with_char] in H. specialize (IH H).
    cbn [line_breaks] in *. lia.
Qed.

Lemma line_len_pos s : s <> EmptyString -> (1 <= line_len s)%N.
Proof.
  intros Hs. destruct s as [|c r]; [congruence|]. unfold line_len.
  destruct (ends_with_char "010" (String c r)) eqn:E.
  - pose proof (ends_with_breaks _ E). lia.
  - lia.
Qed.

End RopeFacts.

(** ** The print loops *)

Section PrintLoops.

Variable HL : Type.
Variable highlight_line : HL -> string -> HL * string.

Lemma print_lines_spec text : forall count h i,
  (N.to_nat i + count <= N.to_nat (Rope.line_len text))%nat ->
  print_lines HL highlight_line h text i count
  = Returns (map (fun e => e ++ LF) (hl_run HL highlight_line h (slice text (N.to_nat i) count))).
Proof.
  induction count as [|k IH]; intros h i Hle; [reflexivity|].
  simpl. rewrite RopeFacts.line_in_range by lia. simpl.
  unfold slice in *. simpl.
  destruct (highlight_line h _) as [h' e] eqn:Eh.
  rewrite IH by lia. simpl.
  replace (N.to_nat (i + 1)) with (S (N.to_nat i)) by lia.
  reflexivity.
Qed.

Lemma nprint_lines_spec text width : forall count h i,
  (N.to_nat i + count <= N.to_nat (Rope.line_len text))%nat ->
  nprint_lines HL highlight_line h text width i count
  = Returns (map (numbered width)
       (combine (map N.of_nat (seq (S (N.to_nat i)) count))
                (hl_run HL highlight_line h (slice text (N.to_nat i) count)))).
Proof.
  induction count as [|k IH]; intros h i Hle; [reflexivity|].
  simpl. rewrite RopeFacts.line_in_range by lia. simpl.
  unfold slice in *. simpl.
  destruct (highlight_line h _) as [h' e] eqn:Eh.
  rewrite IH by lia. simpl.
  replace (N.to_nat (i + 1)) with (S (N.to_nat i)) by lia.
  replace (N.pos (Pos.of_succ_nat (N.to_nat i))) with (i + 1)%N by lia.
  reflexivity.
Qed.

Lemma hl_run_length : forall ls h, length (hl_run HL highlight_line h ls) = length ls.
Proof.
  induction ls as [|l ls IH]; intros h; [reflexivity|].
  simpl. destruct (highlight_line h l) as [h' e]. simpl. rewrite IH. reflexivity.
Qed.

End PrintLoops.

Lemma nth_pred_length_last {A} (l : list A) d :
  nth (length l - 1) l d = last l d.
Proof.
  induction l as [|a l' IH]; [reflexivity|].
  destruct l' as [|b l'']; [reflexivity|].
  cbn [length] in *. replace (S (S (length l'')) - 1)%nat with (S (length l'')) by lia.
  change (nth (length l'') (b :: l'') d = last (b :: l'') d).
  rewrite <- IH. f_equal. lia.
Qed.

(** [exec_command] on a print-family range once its start has been shifted. *)
Lemma sub1_usize_pos n : (1 <= n)%N -> sub1_usize n = Returns (n - 1)%N.
Proof.
  intros H. unfold sub1_usize. destruct (n =? 0)%N eqn:E; [apply N.eqb_eq in E; lia|reflexivity].
Qed.

(** ** C5: [Print] emits the lines of its range, in order, without gutter *)

(** C5: for [1 <= start <= end <= line_count], [Print {start, end}] emits
    exactly [end - start + 1] lines, the stored lines [start .. end] in buffer
    order, each rendered by the highlighter and followed by a line feed and
    nothing else (no gutter), then a single style reset; the state is
    unchanged. *)
Theorem print_emits_range (HL : Type) (highlight_line : HL -> string -> HL * string)
  (h : HL) (st : BedState) (r : Range) (stdin : list string)
  (H1 : (1 <= start r)%N) (H2 : (start r <= end_ r)%N)
  (H3 : (end_ r <= Rope.line_len (content st))%N) :
  exists out,
    exec_command HL highlight_line h st (Print r) stdin
      = Returns (Continue st stdin (out ++ [RESET]))
    /\ length out = N.to_nat (end_ r - start r + 1)
    /\ out = map (fun e => e ++ LF)
               (hl_run HL highlight_line h
                  (slice (content st) (N.to_nat (start r) - 1)
                         (N.to_nat (end_ r - start r + 1)))).
Proof.
  eexists. split; [|split]; [| |reflexivity].
  - unfold exec_command. rewrite sub1_usize_pos by exact H1. simpl.
    replace (end_ r - (start r - 1))%N with (end_ r - start r + 1)%N by lia.
    rewrite print_lines_spec by lia.
    replace (N.to_nat (start r - 1)) with (N.to_nat (start r) - 1)%nat by lia.
    reflexivity.
  - rewrite length_map, hl_run_length. unfold slice.
    rewrite length_map, length_seq. reflexivity.
Qed.

Lemma print_emits_range_witness :
  exists out,
    exec_command unit plain tt {| content := abcde; current_line := 5 |}
      (Print {| start := 2; end_ := 4 |}) []
      = Returns (Continue {| content := abcde; current_line := 5 |} [] (out ++ [RESET]))
    /\ length out = 3%nat
    /\ out = map (fun e => e ++ LF)
               (hl_run unit plain tt (slice abcde 1 3)).
Proof.
  apply (print_emits_range unit plain tt {| content := abcde; current_line := 5 |}
           {| start := 2; end_ := 4 |} []); vm_compute; congruence.
Defined.

(** ** C7: [NPrint] numbers every line in a right-aligned gutter *)

(** C7: for [1 <= start <= end <= line_count], [NPrint {start, end}] emits,
    for each line [n] of the range in order, the number [n] right-aligned
    ([{:width$}]) in a field of [width] = the digit count of [line_len()] at
    this command, followed by the separator [" │ "], the rendered stored line,
    a line feed and a style reset; the number fills exactly [width] columns;
    the state, and so [current_line], is unchanged. *)
Theorem nprint_numbered_gutter (HL : Type) (highlight_line : HL -> string -> HL * string)
  (h : HL) (st : BedState) (r : Range) (stdin : list string)
  (H1 : (1 <= start r)%N) (H2 : (start r <= end_ r)%N)
  (H3 : (end_ r <= Rope.line_len (content st))%N) :
  let width := String.length (to_string (Rope.line_len (content st))) in
  let count := N.to_nat (end_ r - start r + 1) in
  exists out,
    exec_command HL highlight_line h st (NPrint r) stdin = Returns (Continue st stdin out)
    /\ out = map (numbered width)
               (combine (map N.of_nat (seq (N.to_nat (start r)) count))
                  (hl_run HL highlight_line h
                     (slice (content st) (N.to_nat (start r) - 1) count)))
    /\ length out = count
    /\ (forall n, In n (map N.of_nat (seq (N.to_nat (start r)) count)) ->
          String.length (fmt_width width n) = width).
Proof.
  intros width count. eexists. split; [|split; [reflexivity|split]].
  - unfold exec_command. rewrite sub1_usize_pos by exact H1. simpl.
    replace (end_ r - (start r - 1))%N with (end_ r - start r + 1)%N by lia.
    rewrite nprint_lines_spec by lia.
    replace (N.to_nat (start r - 1)) with (N.to_nat (start r) - 1)%nat by lia.
    replace (S (N.to_nat (start r) - 1)) with (N.to_nat (start r)) by lia.
    reflexivity.
  - rewrite length_map, length_combine, hl_run_length. unfold slice.
    rewrite !length_map, !length_seq. lia.
  - intros n Hn. apply in_map_iff in Hn. destruct Hn as [k [Hk Hin]].
    apply in_seq in Hin. subst n. unfold width.
    apply fmt_width_length. unfold count in Hin. lia.
Qed.

Lemma nprint_numbered_gutter_witness :
  exists out,
    exec_command unit plain tt {| content := ten_lines; current_line := 4 |}
      (NPrint {| start := 9; end_ := 10 |}) []
      = Returns (Continue {| content := ten_lines; current_line := 4 |} [] out)
    /\ out = [" 9" ++ SEP ++ "i" ++ LF ++ RESET; "10" ++ SEP ++ "j" ++ LF ++ RESET].
Proof.
  destruct (nprint_numbered_gutter unit plain tt {| content := ten_lines; current_line := 4 |}
              {| start := 9; end_ := 10 |} [] ltac:(vm_compute; congruence)
              ltac:(vm_compute; congruence) ltac:(vm_compute; congruence))
    as [out [Hexec [Hout _]]].
  exists out. split; [exact Hexec|]. rewrite Hout. vm_compute. reflexivity.
Defined.

(** ** C9: the cursor starts on the last line *)

(** C9: at startup [current_line] is [line_len()] of the loaded text; for a
    non-empty file this is the 1-based number of its last line: line
    [current_line - 1] (0-based) exists and is the last stored line, and there
    is no line [current_line]. *)
Theorem init_cursor_last_line (file : string) (Hne : file <> EmptyString) :
  let st := init_state file in
  content st = file
  /\ current_line st = Rope.line_len file
  /\ (1 <= current_line st)%N
  /\ Rope.line file (current_line st - 1) = Returns (last (Rope.lines file) EmptyString)
  /\ Rope.line file (current_line st) = Panics.
Proof.
  cbn zeta. unfold init_state; simpl.
  pose proof (RopeFacts.line_len_pos file Hne) as Hpos.
  split; [reflexivity|split; [reflexivity|split; [exact Hpos|split]]].
  - rewrite RopeFacts.line_in_range by lia.
    rewrite <- nth_pred_length_last, RopeFacts.lines_length.
    replace (N.to_nat (Rope.line_len file - 1)) with (N.to_nat (Rope.line_len file) - 1)%nat by lia.
    reflexivity.
  - apply RopeFacts.line_out_of_range. lia.
Qed.

Lemma init_cursor_last_line_witness :
  abcde <> EmptyString
  /\ current_line (init_state abcde) = 5%N
  /\ Rope.line abcde (current_line (init_state abcde) - 1) = Returns "e".
Proof.
  assert (Hne : abcde <> EmptyString) by discriminate.
  destruct (init_cursor_last_line abcde Hne) as [_ [Hcl [_ [Hlast _]]]].
  split; [exact Hne|split].
  - rewrite Hcl. vm_compute. reflexivity.
  - rewrite Hlast. vm_compute. reflexivity.
Defined.

(** ** C10: a print range starting at 0 underflows *)

(** C10: the print grammar accepts the address 0 ([0p], [0,3p], [0n] parse to
    ranges starting at 0), and [Print] or [NPrint] on any range starting at 0
    panics on the [usize] subtraction [range.start - 1] before printing;
    with [1 <= start <= end <= line_count] neither panics. *)
Theorem print_start_zero_underflows :
  (forall cl ml, parse_command "0p" cl ml = Returns (Print {| start := 0; end_ := 0 |}, []))
  /\ (forall cl ml, parse_command "0,3p" cl ml = Returns (Print {| start := 0; end_ := 3 |}, []))
  /\ (forall cl ml, parse_command "0n" cl ml = Returns (NPrint {| start := 0; end_ := 0 |}, []))
  /\ (forall HL highlight_line (h : HL) st r stdin, start r = 0%N ->
        exec_command HL highlight_line h st (Print r) stdin = Panics
        /\ exec_command HL highlight_line h st (NPrint r) stdin = Panics)
  /\ (forall HL highlight_line (h : HL) st r stdin,
        (1 <= start r)%N -> (start r <= end_ r)%N -> (end_ r <= Rope.line_len (content st))%N ->
        exec_command HL highlight_line h st (Print r) stdin <> Panics
        /\ exec_command HL highlight_line h st (NPrint r) stdin <> Panics).
Proof.
  split; [intros; reflexivity|].
  split; [intros; reflexivity|].
  split; [intros; reflexivity|].
  split.
  - intros HL hl h st r stdin H0. unfold exec_command, sub1_usize. rewrite H0. simpl.
    split; reflexivity.
  - intros HL hl h st r stdin H1 H2 H3.
    unfold exec_command. rewrite sub1_usize_pos by exact H1. simpl.
    rewrite print_lines_spec by lia. rewrite nprint_lines_spec by lia.
    simpl. split; discriminate.
Qed.

(** ** String and scanner facts *)

Lemma str_app_nil_r (s : string) : s ++ EmptyString = s.
Proof. induction s as [|c s IH]; simpl; [reflexivity|now rewrite IH]. Qed.

Lemma str_app_assoc (a b c : string) : (a ++ b) ++ c = a ++ (b ++ c).
Proof. induction a as [|x a IH]; simpl; [reflexivity|now rewrite IH]. Qed.

Lemma span_spec p : forall s a b, span p s = (a, b) -> s = a ++ b /\ all_chars p a = true.
Proof.
  induction s as [|c s IH]; intros a b H; simpl in H.
  - inversion H; subst. split; reflexivity.
  - destruct (p c) eqn:Ep.
    + destruct (span p s) as [a' b'] eqn:Es. inversion H; subst.
      destruct (IH _ _ eq_refl) as [-> Hall]. simpl. rewrite Ep, Hall. split; reflexivity.
    + inversion H; subst. split; reflexivity.
Qed.

Lemma opt_capture_some s d : opt_capture s = Some d -> d = s /\ s <> EmptyString.
Proof. destruct s; simpl; intros H; inversion H; subst; split; congruence. Qed.

(** ** The print regex *)

Lemma ws_not_digit a : is_ws a = true -> is_digit a = false.
Proof.
  unfold is_ws, is_digit. cbv zeta. intros H.
  apply orb_true_iff in H. rewrite andb_true_iff, !Nat.leb_le, Nat.eqb_eq in H.
  apply not_true_iff_false. rewrite andb_true_iff, !Nat.leb_le. lia.
Qed.

Lemma digit_not_ws a : is_digit a = true -> is_ws a = false.
Proof.
  intros H. destruct (is_ws a) eqn:E; [|reflexivity].
  rewrite (ws_not_digit a E) in H. discriminate.
Qed.

Lemma ws_not_comma a : is_ws a = true -> Ascii.eqb a "," = false.
Proof. intros H. destruct (Ascii.eqb_spec a ","); [subst; discriminate|reflexivity]. Qed.

Lemma digit_not_comma a : is_digit a = true -> Ascii.eqb a "," = false.
Proof. intros H. destruct (Ascii.eqb_spec a ","); [subst; discriminate|reflexivity]. Qed.

Lemma pn_facts x : is_pn x = true ->
  is_digit x = false /\ is_ws x = false /\ Ascii.eqb x "," = false.
Proof.
  unfold is_pn. intros H. apply orb_true_iff in H.
  destruct H as [H|H]; apply Ascii.eqb_eq in H; subst; repeat split; reflexivity.
Qed.

Lemma span_stop p r : head_not p r -> span p r = (EmptyString, r).
Proof. destruct r as [|c r]; simpl; [reflexivity|]. intros ->. reflexivity. Qed.

Lemma skip_stop p r : head_not p r -> skip_opt p r = r.
Proof. destruct r as [|c r]; simpl; [reflexivity|]. intros ->. reflexivity. Qed.

Lemma span_app p d r : all_chars p d = true ->
  span p (d ++ r) = (d ++ fst (span p r), snd (span p r)).
Proof.
  induction d as [|c d IH]; intros Hd.
  - simpl. destruct (span p r); reflexivity.
  - cbn [all_chars] in Hd. apply andb_true_iff in Hd. destruct Hd as [Hc Hd].
    cbn [append span]. rewrite Hc, IH by exact Hd. reflexivity.
Qed.

Lemma skip_opt_cases p s : exists o, s = opt_char o ++ skip_opt p s
  /\ match o with None => True | Some a => p a = true end.
Proof.
  destruct s as [|c r]; [exists None; split; [reflexivity|exact I]|].
  simpl. destruct (p c) eqn:E.
  - exists (Some c). split; [reflexivity|exact E].
  - exists None. split; [reflexivity|exact I].
Qed.

Lemma cap_len_opt_capture s : cap_len (opt_capture s) = String.length s.
Proof. destruct s; reflexivity. Qed.

Lemma print_re_tail_ok w1 s3 w2 x :
  opt_ws w1 = true -> all_chars is_digit s3 = true -> opt_ws w2 = true -> is_pn x = true ->
  print_re_tail (opt_char w1 ++ s3 ++ opt_char w2 ++ String x EmptyString) = Some s3.
Proof.
  intros Hw1 H3 Hw2 Hx. destruct (pn_facts x Hx) as [Xd [Xw Xc]].
  assert (Hhead : head_not is_digit (opt_char w2 ++ String x EmptyString)).
  { destruct w2 as [b|]; simpl; [apply ws_not_digit; exact Hw2|exact Xd]. }
  assert (Hspan : span is_digit (s3 ++ opt_char w2 ++ String x EmptyString)
                  = (s3, opt_char w2 ++ String x EmptyString)).
  { rewrite span_app by exact H3. rewrite span_stop by exact Hhead.
    simpl. rewrite str_app_nil_r. reflexivity. }
  assert (Hskip2 : skip_opt is_ws (opt_char w2 ++ String x EmptyString) = String x EmptyString).
  { destruct w2 as [b|]; simpl in *; [rewrite Hw2|rewrite Xw]; reflexivity. }
  unfold print_re_tail.
  destruct w1 as [a|].
  - simpl in Hw1. cbn [opt_char append skip_opt]. rewrite Hw1, Hspan, Hskip2, Hx. reflexivity.
  - cbn [opt_char append]. destruct s3 as [|d s3'].
    + cbn [append]. rewrite Hskip2. cbn [skip_opt span]. rewrite Xd. cbn [skip_opt].
      rewrite Xw, Hx. reflexivity.
    + assert (Hd : is_digit d = true) by (cbn [all_chars] in H3; apply andb_true_iff in H3; apply H3).
      rewrite skip_stop by (simpl; apply digit_not_ws; exact Hd).
      rewrite Hspan, Hskip2, Hx. reflexivity.
Qed.

(** Every value of [print_re] is a match of the regex. *)
Lemma print_re_sound t g1 g3 : print_re t = Some (g1, g3) -> print_re_match t g1 g3.
Proof.
  unfold print_re.
  destruct (span is_digit t) as [d1 r1] eqn:E1.
  destruct (print_re_tail (skip_opt (fun c => Ascii.eqb c ",") r1)) as [d3|] eqn:Et;
    [|discriminate].
  intros H; inversion H; subst g1 g3; clear H.
  destruct (span_spec _ _ _ _ E1) as [Ht Hd1].
  destruct (skip_opt_cases (fun c => Ascii.eqb c ",") r1) as [o1 [Ho1 Hp1]].
  set (r2 := skip_opt (fun c => Ascii.eqb c ",") r1) in *.
  unfold print_re_tail in Et.
  destruct (skip_opt_cases is_ws r2) as [o2 [Ho2 Hp2]].
  set (r3 := skip_opt is_ws r2) in *.
  destruct (span is_digit r3) as [d3' r4] eqn:E3.
  destruct (span_spec _ _ _ _ E3) as [Hr3 Hd3].
  destruct (skip_opt_cases is_ws r4) as [o3 [Ho3 Hp3]].
  set (r5 := skip_opt is_ws r4) in *.
  destruct r5 as [|x [|x' r6]] eqn:E5; try discriminate.
  destruct (is_pn x) eqn:Ex; [|discriminate].
  inversion Et; subst d3'. clear Et.
  apply (print_re_match_intro t d1 d3 (match o1 with Some _ => true | None => false end) o2 o3 x);
    try assumption.
  - destruct o2; [exact Hp2|reflexivity].
  - destruct o3; [exact Hp3|reflexivity].
  - rewrite Ht, Ho1, Ho2, Hr3, Ho3.
    destruct o1 as [a|]; [apply Ascii.eqb_eq in Hp1; subst a|]; reflexivity.
Qed.

(** Every match of the regex is found, and the captures of [print_re] are
    those of the highest-priority match: the longest group 1. *)
Lemma print_re_complete t g1' g3' : print_re_match t g1' g3' ->
  exists g1 g3, print_re t = Some (g1, g3)
    /\ (cap_len g1' < cap_len g1 \/ (g1' = g1 /\ g3' = g3))%nat.
Proof.
  destruct 1 as [s1 s3 comma w1 w2 x H1 H3 Hw1 Hw2 Hx ->].
  destruct (pn_facts x Hx) as [Xd [Xw Xc]].
  unfold print_re. rewrite span_app by exact H1.
  destruct comma.
  - rewrite (span_stop is_digit) by reflexivity. cbn [fst snd].
    rewrite str_app_nil_r. cbn [append skip_opt]. rewrite Ascii.eqb_refl.
    rewrite print_re_tail_ok by assumption.
    eexists _, _. split; [reflexivity|right; split; reflexivity].
  - cbn [append]. destruct w1 as [a|].
    + simpl in Hw1.
      rewrite (span_stop is_digit) by (simpl; apply ws_not_digit; exact Hw1). cbn [fst snd].
      rewrite str_app_nil_r.
      rewrite skip_stop by (simpl; apply ws_not_comma; exact Hw1).
      rewrite print_re_tail_ok by assumption.
      eexists _, _. split; [reflexivity|right; split; reflexivity].
    + cbn [opt_char append]. destruct s3 as [|d s3'].
      * cbn [append].
        assert (Hh : forall p, p x = false -> (forall b, w2 = Some b -> p b = false) ->
                   head_not p (opt_char w2 ++ String x EmptyString)).
        { intros p Hpx Hpb. destruct w2 as [b|]; simpl; [apply Hpb; reflexivity|exact Hpx]. }
        rewrite (span_stop is_digit)
          by (apply Hh; [exact Xd|intros b ->; apply ws_not_digit; exact Hw2]).
        cbn [fst snd]. rewrite str_app_nil_r.
        rewrite skip_stop by (apply Hh; [exact Xc|intros b ->; apply ws_not_comma; exact Hw2]).
        change (opt_char w2 ++ String x EmptyString)
          with (opt_char None ++ EmptyString ++ opt_char w2 ++ String x EmptyString).
        rewrite print_re_tail_ok by (try assumption; reflexivity).
        eexists _, _. split; [reflexivity|right; split; reflexivity].
      * assert (Hd : all_chars is_digit (String d s3') = true) by exact H3.
        rewrite span_app by exact Hd.
        rewrite (span_stop is_digit (opt_char w2 ++ String x EmptyString))
          by (destruct w2 as [b|]; simpl; [apply ws_not_digit; exact Hw2|exact Xd]).
        cbn [fst snd]. rewrite str_app_nil_r.
        rewrite skip_stop
          by (destruct w2 as [b|]; simpl; [apply ws_not_comma; exact Hw2|exact Xc]).
        change (opt_char w2 ++ String x EmptyString)
          with (opt_char w2 ++ EmptyString ++ opt_char None ++ String x EmptyString).
        rewrite print_re_tail_ok by (try assumption; reflexivity).
        eexists _, _. split; [reflexivity|left].
        rewrite !cap_len_opt_capture, length_append. simpl. lia.
Qed.

(** [print_re] is the regex under leftmost-first semantics: it returns the
    captures of a match, and no match has a longer group 1, nor the same
    group 1 with another group 3. *)
Lemma print_re_leftmost_first t g1 g3 :
  print_re t = Some (g1, g3) <->
  print_re_match t g1 g3
  /\ (forall g1' g3', print_re_match t g1' g3' ->
        (cap_len g1' < cap_len g1 \/ (g1' = g1 /\ g3' = g3))%nat).
Proof.
  split.
  - intros H. split; [apply print_re_sound; exact H|].
    intros g1' g3' M. destruct (print_re_complete _ _ _ M) as [h1 [h3 [Hp Hc]]].
    rewrite H in Hp. inversion Hp; subst. exact Hc.
  - intros [M Hmax]. destruct (print_re_complete _ _ _ M) as [h1 [h3 [Hp Hc]]].
    destruct (Hmax h1 h3 (print_re_sound _ _ _ Hp)) as [Hlt|[-> ->]]; [|exact Hp].
    destruct Hc as [Hlt'|[-> ->]]; [lia|exact Hp].
Qed.

(** The two captures of the print regex are digit runs of the input. *)
Lemma print_re_captures t g1 g3 : print_re t = Some (g1, g3) ->
  (forall d, g1 = Some d -> digit_run_in t d) /\ (forall d, g3 = Some d -> digit_run_in t d).
Proof.
  intros H. apply print_re_sound in H.
  destruct H as [s1 s3 comma w1 w2 x H1 H3 _ _ _ Ht].
  split; intros d Hd; apply opt_capture_some in Hd; destruct Hd as [-> Hne].
  - exists EmptyString, ((if comma then "," else EmptyString) ++ opt_char w1 ++ s3 ++ opt_char w2
          ++ String x EmptyString).
    repeat split; assumption.
  - exists (s1 ++ (if comma then "," else EmptyString) ++ opt_char w1),
      (opt_char w2 ++ String x EmptyString).
    repeat split; try assumption.
    rewrite Ht, !str_app_assoc. reflexivity.
Qed.

Lemma parse_capture_panics g : parse_capture g = Panics ->
  exists d, g = Some d /\ (usize_max < digits_value 0 d)%N.
Proof.
  destruct g as [d|]; simpl; [|discriminate].
  unfold parse_usize_unwrap. destruct (digits_value 0 d <=? usize_max)%N eqn:E;
    [discriminate|]. intros _. exists d. split; [reflexivity|]. apply N.leb_gt. exact E.
Qed.

Lemma move_re_spec t g : move_re t = Some g -> g = t /\ t <> EmptyString /\ all_chars is_digit t = true.
Proof.
  unfold move_re. destruct t as [|c r]; [discriminate|].
  destruct (all_chars is_digit (String c r)) eqn:E; [|discriminate].
  intros H; inversion H; subst. repeat split; congruence.
Qed.

Lemma nonempty_of_digit_run t : t <> EmptyString -> all_chars is_digit t = true -> digit_run_in t t.
Proof. intros. exists EmptyString, EmptyString. rewrite str_app_nil_r. repeat split; assumption. Qed.

(** The diagnostics of [parse_command]: one [Unknown command] line exactly
    when the command is [None]. *)
Lemma parse_command_diagnostics (s : string) (cl ml : N) :
  forall cmd err, parse_command s cl ml = Returns (cmd, err) ->
    (cmd = CmdNone /\ err = [unknown_command (trim s)]) \/ (cmd <> CmdNone /\ err = []).
Proof.
  unfold parse_command. set (t := trim s).
  intros cmd err.
  destruct (quit_re t).
  { intros H; inversion H; subst. right. split; [discriminate|reflexivity]. }
  destruct (print_re t) as [[g1 g3]|].
  + destruct (parse_capture g1) as [v1|]; simpl; [|discriminate].
    destruct (parse_capture g3) as [v3|]; simpl; [|discriminate].
    destruct (ends_with_char "p" t); [intros H; inversion H; subst; right; split; [discriminate|reflexivity]|].
    destruct (ends_with_char "n" t); [intros H; inversion H; subst; right; split; [discriminate|reflexivity]|].
    intros H; inversion H; subst. left. split; reflexivity.
  + destruct (change_re t).
    { intros H; inversion H; subst. right. split; [discriminate|reflexivity]. }
    destruct (move_re t) as [g|].
    * unfold parse_usize_unwrap. destruct (digits_value 0 g <=? usize_max)%N; simpl; [|discriminate].
      intros H; inversion H; subst. right. split; [discriminate|reflexivity].
    * intros H; inversion H; subst. left. split; reflexivity.
Qed.

(** [Quit] comes only from the quit regex. *)
Lemma parse_command_quit (s : string) (cl ml : N) err :
  parse_command s cl ml = Returns (Quit, err) <-> quit_re (trim s) = true /\ err = [].
Proof.
  unfold parse_command. set (t := trim s). split.
  - destruct (quit_re t).
    { intros H; inversion H; subst. split; reflexivity. }
    destruct (print_re t) as [[g1 g3]|].
    + destruct (parse_capture g1) as [v1|]; simpl; [|discriminate].
      destruct (parse_capture g3) as [v3|]; simpl; [|discriminate].
      destruct (ends_with_char "p" t); [discriminate|].
      destruct (ends_with_char "n" t); discriminate.
    + destruct (change_re t); [discriminate|].
      destruct (move_re t) as [g|]; [|discriminate].
      unfold parse_usize_unwrap. destruct (digits_value 0 g <=? usize_max)%N; discriminate.
  - intros [-> ->]. reflexivity.
Qed.

(** ** C1: [c] replaces the whole buffer with one input line *)

Lemma split_lines_aux_line : forall x cur, contains_char "010" x = false ->
  Rope.split_lines_aux cur (x ++ LF) = [cur ++ x; EmptyString].
Proof.
  induction x as [|c x IH]; intros cur Hx.
  - simpl. rewrite str_app_nil_r. reflexivity.
  - cbn [contains_char] in Hx. apply orb_false_iff in Hx. destruct Hx as [Hc Hx].
    change (String c x ++ LF) with (String c (x ++ LF)).
    cbn [Rope.split_lines_aux]. rewrite Ascii.eqb_sym, Hc, IH by exact Hx.
    rewrite str_app_assoc. reflexivity.
Qed.

Lemma line_breaks_line : forall x, contains_char "010" x = false -> Rope.line_breaks (x ++ LF) = 1%nat.
Proof.
  induction x as [|c x IH]; intros Hx; [reflexivity|].
  cbn [contains_char] in Hx. apply orb_false_iff in Hx. destruct Hx as [Hc Hx].
  change (String c x ++ LF) with (String c (x ++ LF)).
  cbn [Rope.line_breaks]. rewrite Ascii.eqb_sym, Hc, IH by exact Hx. reflexivity.
Qed.

Lemma ends_with_line : forall x, ends_with_char "010" (x ++ LF) = true.
Proof.
  induction x as [|c x IH]; [reflexivity|].
  simpl. destruct (x ++ LF) eqn:E; [destruct x; discriminate|]. exact IH.
Qed.

(** A text made of one line [x] (and its line feed) holds the single line [x]. *)
Lemma lines_one_line x : contains_char "010" x = false -> Rope.lines (x ++ LF) = [Rope.strip_cr x].
Proof.
  intros Hx. unfold Rope.lines.
  assert (Hlen : Rope.line_len (x ++ LF) = 1%N).
  { unfold Rope.line_len. destruct (x ++ LF) eqn:E; [destruct x; discriminate|].
    rewrite <- E, line_breaks_line, ends_with_line by exact Hx. reflexivity. }
  rewrite Hlen. unfold Rope.split_lines. rewrite split_lines_aux_line by exact Hx.
  reflexivity.
Qed.

(** C1 (as the code does it): [Change] reads exactly one further line of
    input, newline included ([""] at the end of the input), and makes it the
    whole new buffer, [current_line] unchanged; a line [x] without line feed
    read this way leaves the buffer holding the single line [x]. *)
Theorem change_replaces_whole_buffer (HL : Type) (highlight_line : HL -> string -> HL * string)
  (h : HL) (st : BedState) (x : string) (rest : list string)
  (Hx : contains_char "010" x = false) :
  (forall stdin,
     exec_command HL highlight_line h st Change stdin
     = Returns (Continue {| content := fst (read_line stdin); current_line := current_line st |}
                         (snd (read_line stdin)) []))
  /\ exec_command HL highlight_line h st Change ((x ++ LF) :: rest)
     = Returns (Continue {| content := x ++ LF; current_line := current_line st |} rest [])
  /\ Rope.lines (x ++ LF) = [Rope.strip_cr x].
Proof.
  split; [|split].
  - intros [|l stdin]; reflexivity.
  - reflexivity.
  - apply lines_one_line. exact Hx.
Qed.

Lemma change_replaces_whole_buffer_witness :
  exec_command unit plain tt {| content := abcde; current_line := 3 |} Change
    ["x" ++ LF; "y" ++ LF; "." ++ LF]
  = Returns (Continue {| content := "x" ++ LF; current_line := 3 |} ["y" ++ LF; "." ++ LF] [])
  /\ Rope.lines ("x" ++ LF) = ["x"].
Proof.
  destruct (change_replaces_whole_buffer unit plain tt {| content := abcde; current_line := 3 |}
              "x" ["y" ++ LF; "." ++ LF] eq_refl) as [_ [H1 H2]].
  split; [exact H1|]. rewrite H2. reflexivity.
Defined.

(** C1, the claim at its own example: [Change] on line 3 of [a..e] with the
    input [x], [y], [.] does not yield the buffer [a, b, x, y, e]. *)
Lemma change_example_counterexample :
  ~ exists st' rest out,
      exec_command unit plain tt {| content := abcde; current_line := 3 |} Change
        ["x" ++ LF; "y" ++ LF; "." ++ LF] = Returns (Continue st' rest out)
      /\ Rope.lines (content st') = ["a"; "b"; "x"; "y"; "e"].
Proof.
  intros [st' [rest [out [H1 H2]]]]. simpl in H1. inversion H1; subst.
  vm_compute in H2. discriminate.
Qed.

(** ** C2: there is no write command *)

(** C2 (as the code does it): [BedCommand] has no write variant; an input
    that trims to [w] is unrecognised: [parse_command] returns [None] with the
    diagnostic [Unknown command: w], and the loop goes on with the state
    unchanged and nothing written. *)
Theorem write_not_a_command (s : string) (Hs : trim s = "w") :
  (forall cl ml, parse_command s cl ml = Returns (CmdNone, [unknown_command "w"]))
  /\ (forall HL highlight_line (h : HL) st stdin,
        step HL highlight_line (Some h) st (s :: stdin)
        = Returns (Continue st stdin [], [unknown_command "w"])).
Proof.
  assert (Hp : forall cl ml, parse_command s cl ml = Returns (CmdNone, [unknown_command "w"])).
  { intros cl ml. unfold parse_command. rewrite Hs. reflexivity. }
  split; [exact Hp|].
  intros HL hl h st stdin. unfold step. simpl. rewrite Hp. reflexivity.
Qed.

Lemma write_not_a_command_witness :
  trim ("w " ++ LF) = "w"
  /\ parse_command ("w " ++ LF) 5 5 = Returns (CmdNone, [unknown_command "w"]).
Proof.
  split; [reflexivity|].
  apply (write_not_a_command ("w " ++ LF) eq_refl).
Defined.

(** C2, refuted: the input [w] is not a write command; the step it drives
    changes nothing and only reports an unknown command. *)
Lemma write_counterexample :
  parse_command "w" 5 5 = Returns (CmdNone, ["Unknown command: w"])
  /\ step unit plain (Some tt) {| content := abcde; current_line := 5 |} ["w" ++ LF]
     = Returns (Continue {| content := abcde; current_line := 5 |} [] [], ["Unknown command: w"]).
Proof. split; reflexivity. Qed.

(** ** The parser on Unicode text *)

Module UnicodeFacts.

Import Unicode.
Local Open Scope N_scope.
Local Open Scope list_scope.

Lemma forallb_false_In (p : N -> bool) : forall l,
  forallb p l = false -> exists x, In x l /\ p x = false.
Proof.
  induction l as [|a l IH]; simpl; [discriminate|].
  destruct (p a) eqn:E; simpl; intros H.
  - destruct (IH H) as [x [Hx Hp]]. exists x. split; [right; exact Hx|exact Hp].
  - exists a. split; [left; reflexivity|exact E].
Qed.

Lemma span_spec_u p : forall s a b, span p s = (a, b) -> s = a ++ b /\ forallb p a = true.
Proof.
  induction s as [|c s IH]; intros a b H; simpl in H.
  - inversion H; subst. split; reflexivity.
  - destruct (p c) eqn:Ep.
    + destruct (span p s) as [a' b'] eqn:Es. inversion H; subst.
      destruct (IH _ _ eq_refl) as [-> Hall]. simpl. rewrite Ep, Hall. split; reflexivity.
    + inversion H; subst. split; reflexivity.
Qed.

Lemma opt_capture_some_u s d : opt_capture s = Some d -> d = s /\ s <> [].
Proof. destruct s; simpl; intros H; inversion H; subst; split; congruence. Qed.

Lemma span_stop_u p r : head_not p r -> span p r = ([], r).
Proof. destruct r as [|c r]; simpl; [reflexivity|]. intros ->. reflexivity. Qed.

Lemma skip_stop_u p r : head_not p r -> skip_opt p r = r.
Proof. destruct r as [|c r]; simpl; [reflexivity|]. intros ->. reflexivity. Qed.

Lemma span_app_u p d r : forallb p d = true ->
  span p (d ++ r) = (d ++ fst (span p r), snd (span p r)).
Proof.
  induction d as [|c d IH]; intros Hd.
  - simpl. destruct (span p r); reflexivity.
  - cbn [forallb] in Hd. apply andb_true_iff in Hd. destruct Hd as [Hc Hd].
    cbn [app span]. rewrite Hc, IH by exact Hd. reflexivity.
Qed.

Lemma skip_opt_cases_u p s : exists o, s = opt_list o ++ skip_opt p s
  /\ match o with None => True | Some a => p a = true end.
Proof.
  destruct s as [|c r]; [exists None; split; [reflexivity|exact I]|].
  simpl. destruct (p c) eqn:E.
  - exists (Some c). split; [reflexivity|exact E].
  - exists None. split; [reflexivity|exact I].
Qed.

Lemma cap_len_opt_capture_u s : cap_len (opt_capture s) = length s.
Proof. destruct s; reflexivity. Qed.

Lemma forallb_app_u (p : N -> bool) l1 l2 : forallb p (l1 ++ l2) = forallb p l1 && forallb p l2.
Proof. induction l1 as [|a l1 IH]; simpl; [reflexivity|]. rewrite IH, andb_assoc. reflexivity. Qed.

Lemma dec_value_ge : forall ds acc, acc <= dec_value acc ds.
Proof.
  induction ds as [|c g IH]; intros acc; simpl; [lia|].
  specialize (IH (acc * 10 + (c - 48))). lia.
Qed.

(** The digit loop accepts exactly the ASCII digit runs whose value fits. *)
Lemma usize_digits_spec : forall ds acc, acc <= usize_max ->
  usize_digits acc ds =
  if forallb is_ascii_digit ds && (dec_value acc ds <=? usize_max)
  then Some (dec_value acc ds) else None.
Proof.
  induction ds as [|c g IH]; intros acc Hacc.
  - simpl. apply N.leb_le in Hacc. rewrite Hacc. reflexivity.
  - cbn [usize_digits forallb dec_value]. unfold to_digit10.
    destruct (is_ascii_digit c) eqn:Ed; [|reflexivity]. cbn [andb].
    pose proof (dec_value_ge g (acc * 10 + (c - 48))) as Hge.
    destruct (N.leb_spec (acc * 10) usize_max) as [H1|H1].
    + destruct (N.leb_spec (acc * 10 + (c - 48)) usize_max) as [H2|H2].
      * apply IH. exact H2.
      * destruct (N.leb_spec (dec_value (acc * 10 + (c - 48)) g) usize_max);
          [lia|]. rewrite andb_false_r. reflexivity.
    + destruct (N.leb_spec (dec_value (acc * 10 + (c - 48)) g) usize_max);
        [lia|]. rewrite andb_false_r. reflexivity.
Qed.

Lemma usize_max_nonneg : 0 <= usize_max.
Proof. lia. Qed.

Section Nd.

Variable is_nd : N -> bool.
Hypothesis nd_ascii : forall c, is_nd c = true -> c < 128 -> is_ascii_digit c = true.
Hypothesis nd_ws : forall c, is_nd c = true -> is_ws c = false.

Lemma ascii_not_nd c : c < 128 -> is_ascii_digit c = false -> is_nd c = false.
Proof.
  intros Hc Hd. destruct (is_nd c) eqn:E; [|reflexivity].
  rewrite (nd_ascii c E Hc) in Hd. discriminate.
Qed.

Lemma ws_not_nd c : is_ws c = true -> is_nd c = false.
Proof.
  intros H. destruct (is_nd c) eqn:E; [|reflexivity].
  rewrite (nd_ws c E) in H. discriminate.
Qed.

Lemma nd_not_ws c : is_nd c = true -> is_ws c = false.
Proof. exact (nd_ws c). Qed.

Lemma ws_not_comma_u c : is_ws c = true -> (44 =? c) = false.
Proof. intros H. destruct (N.eqb_spec 44 c); [subst; discriminate|reflexivity]. Qed.

Lemma nd_not_comma c : is_nd c = true -> (44 =? c) = false.
Proof.
  intros H. destruct (N.eqb_spec 44 c); [subst|reflexivity].
  rewrite (ascii_not_nd 44) in H by reflexivity. discriminate.
Qed.

Lemma pn_facts_u x : is_pn x = true -> is_nd x = false /\ is_ws x = false /\ (44 =? x) = false.
Proof.
  unfold is_pn. intros H. apply orb_true_iff in H.
  destruct H as [H|H]; apply N.eqb_eq in H; subst;
    (split; [apply ascii_not_nd; reflexivity|split; reflexivity]).
Qed.

Lemma print_re_tail_ok_u w1 s3 w2 x :
  opt_ws w1 = true -> forallb is_nd s3 = true -> opt_ws w2 = true -> is_pn x = true ->
  print_re_tail is_nd (opt_list w1 ++ s3 ++ opt_list w2 ++ [x]) = Some s3.
Proof.
  intros Hw1 H3 Hw2 Hx. destruct (pn_facts_u x Hx) as [Xd [Xw Xc]].
  assert (Hhead : head_not is_nd (opt_list w2 ++ [x])).
  { destruct w2 as [b|]; simpl; [apply ws_not_nd; exact Hw2|exact Xd]. }
  assert (Hspan : span is_nd (s3 ++ opt_list w2 ++ [x]) = (s3, opt_list w2 ++ [x])).
  { rewrite span_app_u by exact H3. rewrite span_stop_u by exact Hhead.
    simpl. rewrite app_nil_r. reflexivity. }
  assert (Hskip2 : skip_opt is_ws (opt_list w2 ++ [x]) = [x]).
  { destruct w2 as [b|]; simpl in *; [rewrite Hw2|rewrite Xw]; reflexivity. }
  unfold print_re_tail.
  destruct w1 as [a|].
  - simpl in Hw1. cbn [opt_list app skip_opt]. rewrite Hw1, Hspan, Hskip2, Hx. reflexivity.
  - cbn [opt_list app]. destruct s3 as [|d s3'].
    + cbn [app]. rewrite Hskip2. cbn [skip_opt span]. rewrite Xd. cbn [skip_opt].
      rewrite Xw, Hx. reflexivity.
    + assert (Hd : is_nd d = true)
        by (cbn [forallb] in H3; apply andb_true_iff in H3; apply H3).
      rewrite skip_stop_u by (simpl; apply nd_not_ws; exact Hd).
      rewrite Hspan, Hskip2, Hx. reflexivity.
Qed.

(** Every value of the Unicode [print_re] is a match of the regex. *)
Lemma print_re_sound_u t g1 g3 : print_re is_nd t = Some (g1, g3) -> print_re_match is_nd t g1 g3.
Proof.
  unfold print_re.
  destruct (span is_nd t) as [d1 r1] eqn:E1.
  destruct (print_re_tail is_nd (skip_opt (N.eqb 44) r1)) as [d3|] eqn:Et; [|discriminate].
  intros H; inversion H; subst g1 g3; clear H.
  destruct (span_spec_u _ _ _ _ E1) as [Ht Hd1].
  destruct (skip_opt_cases_u (N.eqb 44) r1) as [o1 [Ho1 Hp1]].
  set (r2 := skip_opt (N.eqb 44) r1) in *.
  unfold print_re_tail in Et.
  destruct (skip_opt_cases_u is_ws r2) as [o2 [Ho2 Hp2]].
  set (r3 := skip_opt is_ws r2) in *.
  destruct (span is_nd r3) as [d3' r4] eqn:E3.
  destruct (span_spec_u _ _ _ _ E3) as [Hr3 Hd3].
  destruct (skip_opt_cases_u is_ws r4) as [o3 [Ho3 Hp3]].
  set (r5 := skip_opt is_ws r4) in *.
  destruct r5 as [|x [|x' r6]] eqn:E5; try discriminate.
  destruct (is_pn x) eqn:Ex; [|discriminate].
  inversion Et; subst d3'. clear Et.
  apply (print_re_match_intro is_nd t d1 d3 (match o1 with Some _ => true | None => false end) o2 o3 x);
    try assumption.
  - destruct o2; [exact Hp2|reflexivity].
  - destruct o3; [exact Hp3|reflexivity].
  - rewrite Ht, Ho1, Ho2, Hr3, Ho3.
    destruct o1 as [a|]; [apply N.eqb_eq in Hp1; subst a|]; reflexivity.
Qed.

(** Every match of the regex is found, with the longest group 1. *)
Lemma print_re_complete_u t g1' g3' : print_re_match is_nd t g1' g3' ->
  exists g1 g3, print_re is_nd t = Some (g1, g3)
    /\ (cap_len g1' < cap_len g1 \/ (g1' = g1 /\ g3' = g3))%nat.
Proof.
  destruct 1 as [s1 s3 comma w1 w2 x H1 H3 Hw1 Hw2 Hx ->].
  destruct (pn_facts_u x Hx) as [Xd [Xw Xc]].
  unfold print_re. rewrite span_app_u by exact H1.
  destruct comma.
  - rewrite (span_stop_u is_nd) by (apply ascii_not_nd; reflexivity). cbn [fst snd].
    rewrite app_nil_r. cbn [app skip_opt]. rewrite N.eqb_refl.
    rewrite print_re_tail_ok_u by assumption.
    eexists _, _. split; [reflexivity|right; split; reflexivity].
  - cbn [app]. destruct w1 as [a|].
    + simpl in Hw1.
      rewrite (span_stop_u is_nd) by (simpl; apply ws_not_nd; exact Hw1). cbn [fst snd].
      rewrite app_nil_r.
      rewrite skip_stop_u by (simpl; apply ws_not_comma_u; exact Hw1).
      rewrite print_re_tail_ok_u by assumption.
      eexists _, _. split; [reflexivity|right; split; reflexivity].
    + cbn [opt_list app]. destruct s3 as [|d s3'].
      * cbn [app].
        assert (Hh : forall p, p x = false -> (forall b, w2 = Some b -> p b = false) ->
                   head_not p (opt_list w2 ++ [x])).
        { intros p Hpx Hpb. destruct w2 as [b|]; simpl; [apply Hpb; reflexivity|exact Hpx]. }
        rewrite (span_stop_u is_nd)
          by (apply Hh; [exact Xd|intros b ->; apply ws_not_nd; exact Hw2]).
        cbn [fst snd]. rewrite app_nil_r.
        rewrite skip_stop_u
          by (apply Hh; [exact Xc|intros b ->; apply ws_not_comma_u; exact Hw2]).
        change (opt_list w2 ++ [x]) with (opt_list None ++ [] ++ opt_list w2 ++ [x]).
        rewrite print_re_tail_ok_u by (try assumption; reflexivity).
        eexists _, _. split; [reflexivity|right; split; reflexivity].
      * rewrite span_app_u by exact H3.
        rewrite (span_stop_u is_nd (opt_list w2 ++ [x]))
          by (destruct w2 as [b|]; simpl; [apply ws_not_nd; exact Hw2|exact Xd]).
        cbn [fst snd]. rewrite app_nil_r.
        rewrite skip_stop_u
          by (destruct w2 as [b|]; simpl; [apply ws_not_comma_u; exact Hw2|exact Xc]).
        change (opt_list w2 ++ [x]) with (opt_list w2 ++ [] ++ opt_list None ++ [x]).
        rewrite print_re_tail_ok_u by (try assumption; reflexivity).
        eexists _, _. split; [reflexivity|left].
        rewrite !cap_len_opt_capture_u, length_app. simpl. lia.
Qed.

(** The Unicode [print_re] is the regex under leftmost-first semantics. *)
Lemma print_re_leftmost_first_u t g1 g3 :
  print_re is_nd t = Some (g1, g3) <->
  print_re_match is_nd t g1 g3
  /\ (forall g1' g3', print_re_match is_nd t g1' g3' ->
        (cap_len g1' < cap_len g1 \/ (g1' = g1 /\ g3' = g3))%nat).
Proof.
  split.
  - intros H. split; [apply print_re_sound_u; exact H|].
    intros g1' g3' M. destruct (print_re_complete_u _ _ _ M) as [h1 [h3 [Hp Hc]]].
    rewrite H in Hp. inversion Hp; subst. exact Hc.
  - intros [M Hmax]. destruct (print_re_complete_u _ _ _ M) as [h1 [h3 [Hp Hc]]].
    destruct (Hmax h1 h3 (print_re_sound_u _ _ _ Hp)) as [Hlt|[-> ->]]; [|exact Hp].
    destruct Hc as [Hlt'|[-> ->]]; [lia|exact Hp].
Qed.

(** The captures of the print regex are non-empty runs of Nd digits. *)
Lemma print_re_captures_u t g1 g3 g : print_re is_nd t = Some (g1, g3) ->
  g1 = Some g \/ g3 = Some g -> g <> [] /\ forallb is_nd g = true.
Proof.
  intros H Hg. apply print_re_sound_u in H.
  destruct H as [s1 s3 comma w1 w2 x H1 H3 _ _ _ _].
  destruct Hg as [Hg|Hg]; apply opt_capture_some_u in Hg; destruct Hg as [-> Hne];
    split; assumption.
Qed.

Lemma move_re_spec_u t g : move_re is_nd t = Some g -> g = t /\ t <> [] /\ forallb is_nd t = true.
Proof.
  unfold move_re. destruct t as [|c r]; [discriminate|].
  destruct (forallb is_nd (c :: r)) eqn:E; [|discriminate].
  intros H; inversion H; subst. repeat split; congruence.
Qed.

(** On a non-empty run of Nd digits, [usize::from_str] fails exactly on an
    invalid number. *)
Lemma usize_from_str_nd g : g <> [] -> forallb is_nd g = true ->
  (usize_from_str g = None <-> invalid_usize g).
Proof.
  destruct g as [|c rest]; [congruence|]. intros _ Hall.
  assert (Hc : is_nd c = true) by (cbn [forallb] in Hall; apply andb_true_iff in Hall; apply Hall).
  assert (H43 : (c =? 43) = false).
  { destruct (N.eqb_spec c 43); [subst|reflexivity].
    rewrite ascii_not_nd in Hc by reflexivity. discriminate. }
  assert (H45 : (c =? 45) = false).
  { destruct (N.eqb_spec c 45); [subst|reflexivity].
    rewrite ascii_not_nd in Hc by reflexivity. discriminate. }
  unfold usize_from_str. rewrite H43, H45. cbn [orb andb].
  rewrite (usize_digits_spec (c :: rest) 0) by apply usize_max_nonneg.
  unfold invalid_usize.
  destruct (forallb is_ascii_digit (c :: rest)) eqn:Ef.
  - cbn [andb]. rewrite forallb_forall in Ef.
    destruct (N.leb_spec (dec_value 0 (c :: rest)) usize_max) as [Hv|Hv].
    + split; [discriminate|]. intros [[x [Hx Hd]]|Hlt]; [|lia].
      rewrite (Ef x Hx) in Hd. discriminate.
    + split; [intros _; right; exact Hv|reflexivity].
  - cbn [andb]. split; [intros _|reflexivity]. left. apply forallb_false_In. exact Ef.
Qed.

Lemma parse_usize_unwrap_nd g : g <> [] -> forallb is_nd g = true ->
  (parse_usize_unwrap g = Panics <-> invalid_usize g).
Proof.
  intros Hne Hall. rewrite <- (usize_from_str_nd g Hne Hall).
  unfold parse_usize_unwrap. destruct (usize_from_str g); split; congruence.
Qed.

Lemma parse_capture_panics_u g : parse_capture g = Panics ->
  exists d, g = Some d /\ parse_usize_unwrap d = Panics.
Proof.
  destruct g as [d|]; [|discriminate]. unfold parse_capture.
  destruct (parse_usize_unwrap d) eqn:E; [discriminate|]. intros _. exists d. split; [reflexivity|exact E].
Qed.

(** The inputs of the quit regex match neither the print nor the move regex. *)
Lemma quit_inputs_u t : quit_re t = true -> print_re is_nd t = None /\ move_re is_nd t = None.
Proof.
  assert (Hq : is_nd 113 = false) by (apply ascii_not_nd; reflexivity).
  unfold quit_re.
  destruct (list_eq_dec N.eq_dec t (ascii_codes "q")) as [->|_].
  - intros _. change (ascii_codes "q") with [113].
    unfold print_re, print_re_tail, move_re. cbn. rewrite Hq. cbn.
    rewrite Hq. split; reflexivity.
  - destruct (list_eq_dec N.eq_dec t (ascii_codes "quit")) as [->|_]; [|discriminate].
    intros _. change (ascii_codes "quit") with [113; 117; 105; 116].
    unfold print_re, print_re_tail, move_re. cbn. rewrite Hq. cbn.
    rewrite Hq. split; reflexivity.
Qed.

(** A run of Nd digits is not a change command. *)
Lemma change_re_nd t : t <> [] -> forallb is_nd t = true -> change_re t = false.
Proof.
  destruct t as [|c r]; [congruence|]. intros _ H.
  cbn [forallb] in H. apply andb_true_iff in H. destruct H as [Hc _].
  unfold change_re. destruct (N.eqb_spec c 99); [subst|reflexivity].
  rewrite ascii_not_nd in Hc by reflexivity. discriminate.
Qed.

End Nd.

(** The diagnostics of the Unicode [parse_command]. *)
Lemma parse_command_diagnostics_u is_nd (s : ustring) (cl ml : N) :
  forall cmd err, parse_command is_nd s cl ml = Returns (cmd, err) ->
    (cmd = CmdNone /\ err = [unknown_command (trim s)]) \/ (cmd <> CmdNone /\ err = []).
Proof.
  unfold parse_command. set (t := trim s).
  intros cmd err.
  destruct (quit_re t).
  { intros H; inversion H; subst. right. split; [discriminate|reflexivity]. }
  destruct (print_re is_nd t) as [[g1 g3]|].
  + destruct (parse_capture g1) as [v1|]; cbn [obind]; [|discriminate].
    destruct (parse_capture g3) as [v3|]; cbn [obind]; [|discriminate].
    destruct (ends_with 112 t); [intros H; inversion H; subst; right; split; [discriminate|reflexivity]|].
    destruct (ends_with 110 t); [intros H; inversion H; subst; right; split; [discriminate|reflexivity]|].
    intros H; inversion H; subst. left. split; reflexivity.
  + destruct (change_re t).
    { intros H; inversion H; subst. right. split; [discriminate|reflexivity]. }
    destruct (move_re is_nd t) as [g|].
    * destruct (parse_usize_unwrap g); cbn [obind]; [|discriminate].
      intros H; inversion H; subst. right. split; [discriminate|reflexivity].
    * intros H; inversion H; subst. left. split; reflexivity.
Qed.

(** The sample table satisfies the two facts of Nd used above. *)
Lemma nd_sample_ascii c : nd_sample c = true -> c < 128 -> is_ascii_digit c = true.
Proof.
  unfold nd_sample. intros H Hc. apply orb_true_iff in H. destruct H as [H|H]; [exact H|].
  apply andb_true_iff in H. rewrite !N.leb_le in H. lia.
Qed.

Lemma nd_sample_ws c : nd_sample c = true -> is_ws c = false.
Proof.
  unfold nd_sample, is_ascii_digit, is_ws. intros H.
  apply not_true_iff_false. intros Hw.
  rewrite !orb_true_iff, !andb_true_iff, !N.leb_le in H.
  rewrite !orb_true_iff, !andb_true_iff, !N.leb_le, !N.eqb_eq in Hw.
  lia.
Qed.

End UnicodeFacts.

(** ** C3: the parser panics on numbers that are not valid [usize] literals *)

(** C3, refuted: a print address too large for [usize], or written with a
    non-ASCII decimal digit (U+0663, ARABIC-INDIC DIGIT THREE, which [\d]
    matches), makes [parse().unwrap()] panic instead of yielding [None]. *)
Lemma parse_panics_counterexample :
  parse_command "99999999999999999999p" 4 10 = Panics
  /\ Unicode.parse_command Unicode.nd_sample
       (Unicode.ascii_codes "99999999999999999999p") 4 10 = Panics
  /\ Unicode.parse_command Unicode.nd_sample [1635; 112]%N 4 10 = Panics.
Proof. vm_compute. repeat split. Qed.

(** C3 (as the code does it), on Unicode input with any Nd table that
    contains no ASCII character other than the digits and no white space:
    [parse_command] panics exactly when a number captured by the print regex
    (group 1 or 3) or by the move regex is not a valid [usize] literal, i.e.
    it holds a non-ASCII digit or its value exceeds [usize::MAX]; on unmatched
    input it returns [None] with the diagnostic [Unknown command: <input>],
    and every other command comes with no diagnostic. *)
Theorem parse_command_panics_iff_invalid_number (is_nd : N -> bool)
  (Hnd_ascii : forall c, is_nd c = true -> (c < 128)%N -> Unicode.is_ascii_digit c = true)
  (Hnd_ws : forall c, is_nd c = true -> Unicode.is_ws c = false)
  (s : Unicode.ustring) (cl ml : N) :
  (Unicode.parse_command is_nd s cl ml = Panics <->
     exists g, Unicode.captured is_nd (Unicode.trim s) g /\ Unicode.invalid_usize g)
  /\ (Unicode.quit_re (Unicode.trim s) = false ->
      Unicode.print_re is_nd (Unicode.trim s) = None ->
      Unicode.change_re (Unicode.trim s) = false ->
      Unicode.move_re is_nd (Unicode.trim s) = None ->
      Unicode.parse_command is_nd s cl ml
      = Returns (CmdNone, [Unicode.unknown_command (Unicode.trim s)]))
  /\ (forall cmd err, Unicode.parse_command is_nd s cl ml = Returns (cmd, err) ->
        (cmd = CmdNone /\ err = [Unicode.unknown_command (Unicode.trim s)])
        \/ (cmd <> CmdNone /\ err = [])).
Proof.
  split; [|split].
  - unfold Unicode.parse_command. set (t := Unicode.trim s). split.
    + destruct (Unicode.quit_re t); [discriminate|].
      destruct (Unicode.print_re is_nd t) as [[g1 g3]|] eqn:Ep.
      * destruct (Unicode.parse_capture g1) as [v1|] eqn:E1; cbn [obind].
        -- destruct (Unicode.parse_capture g3) as [v3|] eqn:E3; cbn [obind].
           ++ destruct (Unicode.contains 44 t), (Unicode.ends_with 112 t),
                (Unicode.ends_with 110 t); discriminate.
           ++ intros _. destruct (UnicodeFacts.parse_capture_panics_u _ E3) as [d [-> Hd]].
              destruct (UnicodeFacts.print_re_captures_u is_nd _ _ _ d Ep
                          (or_intror eq_refl)) as [Hne Hall].
              exists d. split.
              ** left. exists g1, (Some d). split; [exact Ep|right; reflexivity].
              ** apply (UnicodeFacts.parse_usize_unwrap_nd is_nd Hnd_ascii); assumption.
        -- intros _. destruct (UnicodeFacts.parse_capture_panics_u _ E1) as [d [-> Hd]].
           destruct (UnicodeFacts.print_re_captures_u is_nd _ _ _ d Ep
                       (or_introl eq_refl)) as [Hne Hall].
           exists d. split.
           ++ left. exists (Some d), g3. split; [exact Ep|left; reflexivity].
           ++ apply (UnicodeFacts.parse_usize_unwrap_nd is_nd Hnd_ascii); assumption.
      * destruct (Unicode.change_re t); [discriminate|].
        destruct (Unicode.move_re is_nd t) as [g|] eqn:Em; [|discriminate].
        destruct (UnicodeFacts.move_re_spec_u is_nd _ _ Em) as [-> [Hne Hall]].
        destruct (Unicode.parse_usize_unwrap t) eqn:Eu; cbn [obind]; [discriminate|].
        intros _. exists t. split; [right; split; assumption|].
        apply (UnicodeFacts.parse_usize_unwrap_nd is_nd Hnd_ascii); assumption.
    + intros [g [Hc Hinv]].
      assert (Hpan : forall g1 g3, Unicode.print_re is_nd t = Some (g1, g3) ->
                g1 = Some g \/ g3 = Some g -> Unicode.parse_usize_unwrap g = Panics).
      { intros g1 g3 Ep Hg.
        destruct (UnicodeFacts.print_re_captures_u is_nd _ _ _ g Ep Hg) as [Hne Hall].
        apply (UnicodeFacts.parse_usize_unwrap_nd is_nd Hnd_ascii); assumption. }
      assert (Hpc : Unicode.parse_usize_unwrap g = Panics ->
                    Unicode.parse_capture (Some g) = Panics).
      { intros H. unfold Unicode.parse_capture. rewrite H. reflexivity. }
      destruct Hc as [[g1 [g3 [Ep Hg]]]|[Ep Em]].
      * destruct (Unicode.quit_re t) eqn:Eq.
        { destruct (UnicodeFacts.quit_inputs_u is_nd Hnd_ascii t Eq) as [Hn _].
          rewrite Ep in Hn. discriminate. }
        rewrite Ep. specialize (Hpan g1 g3 Ep Hg).
        destruct Hg as [Hg|Hg]; rewrite Hg.
        -- rewrite (Hpc Hpan). reflexivity.
        -- destruct (Unicode.parse_capture g1); cbn [obind]; [|reflexivity].
           rewrite (Hpc Hpan). reflexivity.
      * destruct (UnicodeFacts.move_re_spec_u is_nd _ _ Em) as [Hgt [Hne Hall]].
        destruct (Unicode.quit_re t) eqn:Eq.
        { destruct (UnicodeFacts.quit_inputs_u is_nd Hnd_ascii t Eq) as [_ Hn].
          rewrite Em in Hn. discriminate. }
        rewrite Ep, (UnicodeFacts.change_re_nd is_nd Hnd_ascii t Hne Hall), Em.
        subst g. apply (UnicodeFacts.parse_usize_unwrap_nd is_nd Hnd_ascii t Hne Hall) in Hinv.
        rewrite Hinv. reflexivity.
  - intros Hq Hp Hc Hm. unfold Unicode.parse_command. rewrite Hq, Hp, Hc, Hm. reflexivity.
  - apply UnicodeFacts.parse_command_diagnostics_u.
Qed.

(** The theorem on the sample Nd table: ["٣p"] panics. *)
Lemma parse_command_panics_iff_invalid_number_witness :
  (forall c, Unicode.nd_sample c = true -> (c < 128)%N -> Unicode.is_ascii_digit c = true)
  /\ (forall c, Unicode.nd_sample c = true -> Unicode.is_ws c = false)
  /\ Unicode.parse_command Unicode.nd_sample [1635; 112]%N 4 10 = Panics.
Proof.
  split; [exact UnicodeFacts.nd_sample_ascii|].
  split; [exact UnicodeFacts.nd_sample_ws|].
  apply (proj2 (proj1 (parse_command_panics_iff_invalid_number Unicode.nd_sample
           UnicodeFacts.nd_sample_ascii UnicodeFacts.nd_sample_ws [1635; 112]%N 4 10))).
  exists [1635%N]. split.
  - left. exists (Some [1635%N]), None. split; [vm_compute; reflexivity|left; reflexivity].
  - left. exists 1635%N. split; [left; reflexivity|reflexivity].
Defined.

(** ** C4: address defaulting *)

(** C4: for a print-family command, with a comma in the input a missing
    first number makes [start = 1] and a missing second number makes
    [end = max_line] (the buffer's line count); without a comma a missing
    number makes [start = current_line], and [end = start]; a number that is
    there is used as it reads.  On a ten-line buffer with [current_line = 4]:
    [,p] is [(1,10)], [p] is [(4,4)], [3,p] is [(3,10)] and [,7p] is [(1,7)]. *)
Theorem parse_address_defaults :
  (forall s cl ml g1 g3 r,
     print_re (trim s) = Some (g1, g3) -> range_of (parse_command s cl ml) = Some r ->
     (forall d, g1 = Some d -> start r = digits_value 0 d)
     /\ (contains_char "," (trim s) = true ->
           (g1 = None -> start r = 1%N) /\ (g3 = None -> end_ r = ml)
           /\ (forall d, g3 = Some d -> end_ r = digits_value 0 d))
     /\ (contains_char "," (trim s) = false ->
           (g1 = None -> start r = cl) /\ end_ r = start r))
  /\ Rope.line_len ten_lines = 10%N
  /\ parse_command ",p" 4 (Rope.line_len ten_lines) = Returns (Print {| start := 1; end_ := 10 |}, [])
  /\ parse_command "p" 4 (Rope.line_len ten_lines) = Returns (Print {| start := 4; end_ := 4 |}, [])
  /\ parse_command "3,p" 4 (Rope.line_len ten_lines) = Returns (Print {| start := 3; end_ := 10 |}, [])
  /\ parse_command ",7p" 4 (Rope.line_len ten_lines) = Returns (Print {| start := 1; end_ := 7 |}, []).
Proof.
  split; [|vm_compute; repeat split; reflexivity].
  intros s cl ml g1 g3 r Hp Hr.
  unfold parse_command in Hr. set (t := trim s) in *. cbn zeta in Hr.
  destruct (quit_re t); [discriminate Hr|]. rewrite Hp in Hr.
  destruct (parse_capture g1) as [v1|] eqn:E1; [|discriminate Hr].
  destruct (parse_capture g3) as [v3|] eqn:E3; [|discriminate Hr].
  assert (V1 : forall d, g1 = Some d -> v1 = Some (digits_value 0 d)).
  { intros d ->. simpl in E1. unfold parse_usize_unwrap in E1.
    destruct (_ <=? _)%N in E1; inversion E1; reflexivity. }
  assert (V3 : forall d, g3 = Some d -> v3 = Some (digits_value 0 d)).
  { intros d ->. simpl in E3. unfold parse_usize_unwrap in E3.
    destruct (_ <=? _)%N in E3; inversion E3; reflexivity. }
  assert (N1 : g1 = None -> v1 = None) by (intros ->; inversion E1; reflexivity).
  assert (N3 : g3 = None -> v3 = None) by (intros ->; inversion E3; reflexivity).
  simpl in Hr.
  assert (Hr' : r = if contains_char "," t
                    then {| start := unwrap_or v1 1; end_ := unwrap_or v3 ml |}
                    else {| start := unwrap_or v1 cl; end_ := unwrap_or v1 cl |}).
  { destruct (ends_with_char "p" t); [inversion Hr; reflexivity|].
    destruct (ends_with_char "n" t); [inversion Hr; reflexivity|discriminate Hr]. }
  subst r. split; [|split].
  - intros d Hd. rewrite (V1 d Hd).
    destruct (contains_char "," t); reflexivity.
  - intros Hc. rewrite Hc. simpl. repeat split.
    + intros H. rewrite (N1 H). reflexivity.
    + intros H. rewrite (N3 H). reflexivity.
    + intros d Hd. rewrite (V3 d Hd). reflexivity.
  - intros Hc. rewrite Hc. simpl. split; [|reflexivity].
    intros H. rewrite (N1 H). reflexivity.
Qed.

(** ** C6: what ends the loop *)

(** C6 (as the code does it): [parse_command] returns [Quit] exactly for the
    inputs that trim to [q] or [quit]; [Quit] is the only command whose
    execution breaks the loop, so a pass of the loop breaks exactly on those
    inputs (once the highlighter is built).  Every other pass either goes on
    or panics, which aborts the process. *)
Theorem quit_only_on_q_or_quit :
  (forall s cl ml err,
     parse_command s cl ml = Returns (Quit, err) <-> (trim s = "q" \/ trim s = "quit") /\ err = [])
  /\ (forall HL highlight_line (h : HL) st cmd stdin,
        exec_command HL highlight_line h st cmd stdin = Returns Break <-> cmd = Quit)
  /\ (forall HL highlight_line (h : HL) st stdin err,
        step HL highlight_line (Some h) st stdin = Returns (Break, err)
        <-> (trim (fst (read_line stdin)) = "q" \/ trim (fst (read_line stdin)) = "quit") /\ err = []).
Proof.
  assert (Hq : forall s cl ml err,
     parse_command s cl ml = Returns (Quit, err) <-> (trim s = "q" \/ trim s = "quit") /\ err = []).
  { intros s cl ml err. rewrite parse_command_quit. unfold quit_re.
    rewrite orb_true_iff, !String.eqb_eq. reflexivity. }
  assert (He : forall HL highlight_line (h : HL) st cmd stdin,
        exec_command HL highlight_line h st cmd stdin = Returns Break <-> cmd = Quit).
  { intros HL hl h st cmd stdin. split; [|intros ->; reflexivity].
    intros H. destruct cmd; [reflexivity| | | | |]; exfalso; simpl in H.
    - destruct (sub1_usize (start range)); simpl in H; [|discriminate H].
      destruct (print_lines _ _ _ _ _ _); discriminate H.
    - destruct (sub1_usize (start range)); simpl in H; [|discriminate H].
      destruct (nprint_lines _ _ _ _ _ _ _); discriminate H.
    - discriminate H.
    - destruct (read_line stdin); discriminate H.
    - discriminate H. }
  split; [exact Hq|]. split; [exact He|].
  intros HL hl h st stdin err. unfold step.
  destruct (read_line stdin) as [input stdin'] eqn:Er. simpl.
  split.
  + destruct (parse_command input _ _) as [[cmd e]|] eqn:Ep; simpl; [|discriminate].
    destruct (exec_command HL hl h st cmd stdin') as [c|] eqn:Ex; simpl; [|discriminate].
    intros H; inversion H; subst.
    apply He in Ex. subst. apply Hq in Ep. exact Ep.
  + intros [Ht ->].
    assert (Ep : parse_command input (current_line st) (Rope.line_len (content st))
                 = Returns (Quit, [])) by (apply Hq; auto).
    rewrite Ep. reflexivity.
Qed.

(** C6, refuted: inputs other than [q] and [quit] can end the process: an
    address past the end of the buffer, or a number too large for [usize]. *)
Lemma quit_counterexample :
  step unit plain (Some tt) {| content := abcde; current_line := 5 |} ["9p" ++ LF] = Panics
  /\ step unit plain (Some tt) {| content := abcde; current_line := 5 |}
       ["99999999999999999999" ++ LF] = Panics.
Proof. split; vm_compute; reflexivity. Qed.

(** ** C8: unrecognised input changes nothing *)

(** C8: an input that [parse_command] turns into [None] leaves
    [current_line], the buffer and the rest of the input as they were,
    prints nothing on standard output, only the diagnostic
    [Unknown command: <input>] on the error stream, and the loop goes on. *)
Theorem unrecognized_input_noop (HL : Type) (highlight_line : HL -> string -> HL * string)
  (h : HL) (st : BedState) (input : string) (stdin : list string) (err : list string)
  (Hp : parse_command input (current_line st) (Rope.line_len (content st)) = Returns (CmdNone, err)) :
  step HL highlight_line (Some h) st (input :: stdin) = Returns (Continue st stdin [], err)
  /\ err = [unknown_command (trim input)].
Proof.
  split.
  - unfold step. simpl. rewrite Hp. reflexivity.
  - destruct (parse_command_diagnostics _ _ _ _ _ Hp) as [[_ ->]|[Hc _]]; [reflexivity|].
    exfalso. apply Hc. reflexivity.
Qed.

Lemma unrecognized_input_noop_witness :
  step unit plain (Some tt) {| content := abcde; current_line := 3 |} ["zzz" ++ LF; "p" ++ LF]
  = Returns (Continue {| content := abcde; current_line := 3 |} ["p" ++ LF] [],
             ["Unknown command: zzz"]).
Proof.
  destruct (unrecognized_input_noop unit plain tt {| content := abcde; current_line := 3 |}
              ("zzz" ++ LF) ["p" ++ LF] ["Unknown command: zzz"] eq_refl) as [H _].
  exact H.
Defined.

(** ** The theme colours *)

Lemma to_digit16_lt c d : to_digit16 c = Some d -> (d < 16)%N.
Proof.
  unfold to_digit16. cbv zeta.
  repeat match goal with |- context [if ?b then _ else _] => destruct b eqn:? end;
    intros H; try discriminate; inversion H; subst;
    match goal with E : (_ <? 16)%nat = true |- _ => apply Nat.ltb_lt in E; lia end.
Qed.

Lemma to_digit16_plus : to_digit16 "+" = None.
Proof. reflexivity. Qed.

Lemma u8_digits_pair c1 c2 d1 d2 :
  to_digit16 c1 = Some d1 -> to_digit16 c2 = Some d2 ->
  u8_digits 0 (String c1 (String c2 EmptyString)) = Some (16 * d1 + d2)%N.
Proof.
  intros H1 H2. pose proof (to_digit16_lt _ _ H1). pose proof (to_digit16_lt _ _ H2).
  cbn [u8_digits]. rewrite H1, H2.
  repeat match goal with |- context [if (?x <=? 255)%N then _ else _] =>
    let E := fresh "E" in destruct (x <=? 255)%N eqn:E;
    [apply N.leb_le in E | apply N.leb_gt in E; exfalso; lia] end.
  f_equal. lia.
Qed.

Lemma hex_component_short hex i j : (String.length hex < j)%nat -> hex_component hex i j = Panics.
Proof.
  intros H. unfold hex_component, str_slice.
  replace (j <=? String.length hex)%nat with false by (symmetry; apply Nat.leb_gt; lia).
  rewrite andb_false_r. reflexivity.
Qed.

(** A component made of two hexadecimal digits. *)
Lemma u8_from_str_radix16_pair c1 c2 d1 d2 :
  to_digit16 c1 = Some d1 -> to_digit16 c2 = Some d2 ->
  u8_from_str_radix16 (String c1 (String c2 EmptyString)) = Some (16 * d1 + d2)%N.
Proof.
  intros H1 H2. unfold u8_from_str_radix16. cbn [String.eqb]. rewrite andb_false_r.
  destruct (Ascii.eqb_spec c1 "+") as [->|_]; [rewrite to_digit16_plus in H1; discriminate|].
  apply u8_digits_pair; assumption.
Qed.

(** X1: on a literal whose first character is ASCII (['#'] in the theme)
    and whose next six characters are hexadecimal digits, in any mix of
    upper and lower case, [hex2color!] returns the three bytes they spell,
    in order, with alpha 255, whatever follows the six digits. *)
Theorem hex2color_reads_six_digits (c0 c1 c2 c3 c4 c5 c6 : ascii) (d1 d2 d3 d4 d5 d6 : N)
  (rest : string) (H0 : (nat_of_ascii c0 < 128)%nat)
  (H1 : to_digit16 c1 = Some d1) (H2 : to_digit16 c2 = Some d2)
  (H3 : to_digit16 c3 = Some d3) (H4 : to_digit16 c4 = Some d4)
  (H5 : to_digit16 c5 = Some d5) (H6 : to_digit16 c6 = Some d6) :
  hex2color (String c0 (String c1 (String c2 (String c3 (String c4 (String c5 (String c6 rest)))))))
  = Returns {| r := 16 * d1 + d2; g := 16 * d3 + d4; b := 16 * d5 + d6; a := 255 |}.
Proof.
  unfold hex2color, hex_component, str_slice.
  destruct rest as [|c7 rest]; cbn -[u8_from_str_radix16];
    rewrite (u8_from_str_radix16_pair c1 c2 d1 d2 H1 H2),
            (u8_from_str_radix16_pair c3 c4 d3 d4 H3 H4),
            (u8_from_str_radix16_pair c5 c6 d5 d6 H5 H6); reflexivity.
Qed.

Lemma hex2color_reads_six_digits_witness :
  ((nat_of_ascii "#" < 128)%nat /\ to_digit16 "A" = Some 10%N /\ to_digit16 "8" = Some 8%N
   /\ to_digit16 "d" = Some 13%N /\ to_digit16 "A" = Some 10%N
   /\ to_digit16 "D" = Some 13%N /\ to_digit16 "c" = Some 12%N)
  /\ hex2color "#A8dADc" = Returns {| r := 168; g := 218; b := 220; a := 255 |}.
Proof.
  assert (H : (nat_of_ascii "#" < 128)%nat /\ to_digit16 "A" = Some 10%N /\ to_digit16 "8" = Some 8%N
   /\ to_digit16 "d" = Some 13%N /\ to_digit16 "A" = Some 10%N
   /\ to_digit16 "D" = Some 13%N /\ to_digit16 "c" = Some 12%N)
    by (split; [vm_compute; lia|repeat split; reflexivity]).
  split; [exact H|].
  destruct H as (H0 & H1 & H2 & H3 & H4 & H5 & H6).
  exact (hex2color_reads_six_digits "#" "A" "8" "d" "A" "D" "c" 10 8 13 10 13 12 EmptyString
           H0 H1 H2 H3 H4 H5 H6).
Defined.

(** X2: a two-character component of [hex2color!] is accepted exactly when
    it is two hexadecimal digits (value [16 * d1 + d2]) or a [+] sign
    followed by one hexadecimal digit (value of that digit); everything else,
    a [-] sign included, makes the [unwrap] panic. *)
Theorem hex_pair_accepted (c1 c2 : ascii) (v : N) :
  u8_from_str_radix16 (String c1 (String c2 EmptyString)) = Some v <->
  (exists d1 d2, to_digit16 c1 = Some d1 /\ to_digit16 c2 = Some d2 /\ v = (16 * d1 + d2)%N)
  \/ (c1 = "+"%char /\ to_digit16 c2 = Some v).
Proof.
  unfold u8_from_str_radix16. cbn [String.eqb]. rewrite andb_false_r.
  destruct (Ascii.eqb c1 "+") eqn:Ep.
  - apply Ascii.eqb_eq in Ep. subst c1. cbn [u8_digits].
    split.
    + destruct (to_digit16 c2) as [d|] eqn:E2; [|discriminate].
      pose proof (to_digit16_lt _ _ E2).
      rewrite (proj2 (N.leb_le (0 * 16) 255)) by lia.
      rewrite (proj2 (N.leb_le (0 * 16 + d) 255)) by lia.
      intros Hv. inversion Hv; subst. right. split; [reflexivity|]. reflexivity.
    + intros [(d1 & d2 & H1 & _)|[_ H2]]; [rewrite to_digit16_plus in H1; discriminate|].
      rewrite H2. pose proof (to_digit16_lt _ _ H2).
      rewrite (proj2 (N.leb_le (0 * 16) 255)) by lia.
      rewrite (proj2 (N.leb_le (0 * 16 + v) 255)) by lia.
      reflexivity.
  - split.
    + destruct (to_digit16 c1) as [d1|] eqn:E1.
      2:{ cbn [u8_digits]. rewrite E1. discriminate. }
      destruct (to_digit16 c2) as [d2|] eqn:E2.
      2:{ cbn [u8_digits]. rewrite E1. pose proof (to_digit16_lt _ _ E1).
          rewrite (proj2 (N.leb_le (0 * 16) 255)) by lia.
          rewrite (proj2 (N.leb_le (0 * 16 + d1) 255)) by lia.
          cbn [u8_digits]. rewrite E2. discriminate. }
      rewrite (u8_digits_pair _ _ _ _ E1 E2). intros H; inversion H; subst.
      left. exists d1, d2. auto.
    + intros [(d1 & d2 & H1 & H2 & ->)|[Hc _]].
      * apply u8_digits_pair; assumption.
      * subst c1. discriminate.
Qed.

(** X3: [hex2color!] on a literal shorter than seven characters panics: the
    slice [5..7] (or an earlier one) is out of bounds. *)
Theorem hex2color_short_panics (hex : string) (Hlen : (String.length hex < 7)%nat) :
  hex2color hex = Panics.
Proof.
  unfold hex2color.
  destruct (hex_component hex 1 3) as [x|]; cbn [obind]; [|reflexivity].
  destruct (hex_component hex 3 5) as [y|]; cbn [obind]; [|reflexivity].
  rewrite hex_component_short by exact Hlen. reflexivity.
Qed.

Lemma hex2color_short_panics_witness :
  (String.length "#12345" < 7)%nat /\ hex2color "#12345" = Panics.
Proof.
  split; [simpl; lia|]. apply hex2color_short_panics. simpl. lia.
Defined.

(** ** The file extension *)

Lemma contains_char_app c : forall s t,
  contains_char c (s ++ t) = contains_char c s || contains_char c t.
Proof.
  induction s as [|d s IH]; intros t; [reflexivity|].
  simpl. rewrite IH. apply orb_assoc.
Qed.

Lemma ends_with_char_app c : forall s t, t <> EmptyString ->
  ends_with_char c (s ++ t) = ends_with_char c t.
Proof.
  induction s as [|d s IH]; intros t Ht; [reflexivity|].
  change (String d s ++ t) with (String d (s ++ t)).
  destruct (s ++ t) as [|e u] eqn:E.
  - destruct s; [simpl in E; congruence|discriminate].
  - change (ends_with_char c (String e u) = ends_with_char c t). rewrite <- E. apply IH. exact Ht.
Qed.

Lemma ends_with_char_snoc c s : ends_with_char c (s ++ String c EmptyString) = true.
Proof.
  rewrite ends_with_char_app by discriminate. simpl. apply Ascii.eqb_refl.
Qed.

Lemma last_opt_cons {A} (x : A) l : l <> [] -> last_opt (x :: l) = last_opt l.
Proof. destruct l; [congruence|reflexivity]. Qed.

Lemma split_on_aux_nonempty sep : forall s cur, split_on_aux sep cur s <> [].
Proof.
  induction s as [|c s IH]; intros cur; simpl; [discriminate|].
  destruct (Ascii.eqb c sep); [discriminate|apply IH].
Qed.

Lemma split_on_aux_last : forall s cur, contains_char "." cur = false ->
  exists pre e, last_opt (split_on_aux "." cur s) = Some e
    /\ cur ++ s = pre ++ e
    /\ (pre = EmptyString \/ ends_with_char "." pre = true)
    /\ contains_char "." e = false
    /\ (contains_char "." s = false -> e = cur ++ s).
Proof.
  induction s as [|c s IH]; intros cur Hcur.
  - exists EmptyString, cur. simpl. rewrite str_app_nil_r.
    repeat split; auto.
  - cbn [split_on_aux]. destruct (Ascii.eqb c ".") eqn:Ec.
    + apply Ascii.eqb_eq in Ec. subst c.
      destruct (IH EmptyString eq_refl) as (pre & e & Hl & He & Hpre & Hd & _).
      exists (cur ++ String "." pre), e.
      rewrite last_opt_cons by apply split_on_aux_nonempty.
      repeat split; auto.
      * simpl in He. rewrite He. rewrite str_app_assoc. reflexivity.
      * right. destruct Hpre as [->|Hpre].
        -- apply ends_with_char_snoc.
        -- rewrite ends_with_char_app by discriminate.
           destruct pre as [|x pre']; [discriminate|].
           change (String "." (String x pre')) with (String "." EmptyString ++ String x pre').
           rewrite ends_with_char_app by discriminate. exact Hpre.
      * intros Hs. simpl in Hs. discriminate.
    + destruct (IH (cur ++ String c EmptyString)) as (pre & e & Hl & He & Hpre & Hd & Hno).
      { rewrite contains_char_app, Hcur. cbn [contains_char orb]. rewrite Ascii.eqb_sym, Ec. reflexivity. }
      exists pre, e. repeat split; auto.
      * rewrite <- He, str_app_assoc. reflexivity.
      * intros Hs. cbn [contains_char] in Hs. apply orb_false_iff in Hs.
        rewrite (Hno (proj2 Hs)), str_app_assoc. reflexivity.
Qed.

(** X4: the extension used to pick the syntax is the part of the file name
    after its last [.], or the whole name when it has no [.]: it holds no
    [.], the name is a prefix ending in [.] (or empty) followed by it, and the
    [split] never yields an empty iterator, so the ["txt"] fallback of
    [unwrap_or_else] is never taken. *)
Theorem file_ext_after_last_dot (filename : string) :
  last_opt (split_on "." filename) = Some (file_ext filename)
  /\ contains_char "." (file_ext filename) = false
  /\ (exists pre, filename = pre ++ file_ext filename
        /\ (pre = EmptyString \/ ends_with_char "." pre = true))
  /\ (contains_char "." filename = false -> file_ext filename = filename).
Proof.
  destruct (split_on_aux_last filename EmptyString eq_refl)
    as (pre & e & Hl & He & Hpre & Hd & Hno).
  unfold file_ext, split_on. rewrite Hl.
  repeat split; auto.
  exists pre. split; auto.
Qed.

(** ** Trimming *)

Lemma list_ascii_of_string_app : forall s t,
  list_ascii_of_string (s ++ t) = (list_ascii_of_string s ++ list_ascii_of_string t)%list.
Proof. induction s as [|c s IH]; intros t; simpl; [reflexivity|now rewrite IH]. Qed.

Lemma all_chars_In p : forall s c, all_chars p s = true -> In c (list_ascii_of_string s) -> p c = true.
Proof.
  induction s as [|d s IH]; intros c Hs Hin; [destruct Hin|].
  cbn [all_chars] in Hs. apply andb_true_iff in Hs. destruct Hs as [Hd Hs].
  destruct Hin as [<-|Hin]; [exact Hd|exact (IH c Hs Hin)].
Qed.

Lemma all_chars_app p s t : all_chars p (s ++ t) = all_chars p s && all_chars p t.
Proof. induction s as [|c s IH]; simpl; [reflexivity|now rewrite IH, andb_assoc]. Qed.

Lemma trim_start_ws_prefix : forall l1 l2, (forall c, In c l1 -> is_ws c = true) ->
  trim_start (string_of_list_ascii (l1 ++ l2)%list) = trim_start (string_of_list_ascii l2).
Proof.
  induction l1 as [|c l1 IH]; intros l2 H; [reflexivity|].
  simpl. rewrite (H c (or_introl eq_refl)). apply IH. intros x Hx. apply H. right. exact Hx.
Qed.

(** Trailing whitespace [w] after a text [s] whose last character is not
    whitespace is cut off by [trim_end]. *)
Lemma trim_end_app_ws s w : all_chars is_ws w = true ->
  (forall c l, rev (list_ascii_of_string s) = c :: l -> is_ws c = false) ->
  trim_end (s ++ w) = s.
Proof.
  intros Hw Hs. unfold trim_end.
  rewrite list_ascii_of_string_app, rev_app_distr.
  rewrite trim_start_ws_prefix.
  2:{ intros c Hc. apply (all_chars_In is_ws w); [exact Hw|]. apply in_rev. exact Hc. }
  destruct (rev (list_ascii_of_string s)) as [|c l] eqn:E.
  - apply (f_equal (@rev ascii)) in E. rewrite rev_involutive in E. simpl in E.
    rewrite <- (string_of_list_ascii_of_string s), E. reflexivity.
  - simpl. rewrite (Hs c l eq_refl). change (String c (string_of_list_ascii l)) with (string_of_list_ascii (c :: l)).
    rewrite list_ascii_of_string_of_list_ascii, <- E, rev_involutive.
    apply string_of_list_ascii_of_string.
Qed.

(** [trim] of a text that neither starts nor ends with whitespace, followed
    by whitespace. *)
Lemma trim_app_ws s w : all_chars is_ws w = true -> head_not is_ws s ->
  (forall c l, rev (list_ascii_of_string s) = c :: l -> is_ws c = false) ->
  trim (s ++ w) = s.
Proof.
  intros Hw Hh Hl. unfold trim.
  destruct s as [|c r].
  - simpl. assert (Hw' : trim_start w = EmptyString).
    { induction w as [|d w IH]; [reflexivity|].
      cbn [all_chars] in Hw. apply andb_true_iff in Hw. destruct Hw as [Hd Hw].
      simpl. rewrite Hd. apply IH. exact Hw. }
    rewrite Hw'. reflexivity.
  - simpl in Hh. change (String c r ++ w) with (String c (r ++ w)).
    cbn [trim_start]. rewrite Hh. apply (trim_end_app_ws (String c r) w Hw Hl).
Qed.

Lemma last_not_ws_digits d : all_chars is_digit d = true ->
  forall c l, rev (list_ascii_of_string d) = c :: l -> is_ws c = false.
Proof.
  intros Hd c l E. apply digit_not_ws. apply (all_chars_In is_digit d c Hd).
  apply in_rev. rewrite E. left. reflexivity.
Qed.

Lemma head_not_ws_digits d : all_chars is_digit d = true -> head_not is_ws d.
Proof.
  destruct d as [|c r]; [intros; exact I|]. cbn [all_chars]. intros H.
  apply andb_true_iff in H. apply digit_not_ws. apply H.
Qed.

Lemma trim_digits_lf d : all_chars is_digit d = true -> trim (d ++ LF) = d.
Proof.
  intros Hd. apply trim_app_ws; [reflexivity|apply head_not_ws_digits; exact Hd|].
  apply last_not_ws_digits. exact Hd.
Qed.

Lemma span_all p d : all_chars p d = true -> span p d = (d, EmptyString).
Proof.
  intros Hd. rewrite <- (str_app_nil_r d) at 1. rewrite span_app by exact Hd.
  simpl. rewrite str_app_nil_r. reflexivity.
Qed.

Lemma quit_re_digits d : all_chars is_digit d = true -> quit_re d = false.
Proof.
  intros Hd. unfold quit_re.
  destruct (String.eqb_spec d "q") as [->|]; [discriminate|].
  destruct (String.eqb_spec d "quit") as [->|]; [discriminate|reflexivity].
Qed.

(** A line of digits is a [Move] to the line it names. *)
Lemma parse_move d cl ml : d <> EmptyString -> all_chars is_digit d = true ->
  (digits_value 0 d <= usize_max)%N ->
  parse_command (d ++ LF) cl ml = Returns (Move (digits_value 0 d), []).
Proof.
  intros Hne Hd Hv. unfold parse_command.
  rewrite trim_digits_lf by exact Hd. rewrite quit_re_digits by exact Hd.
  unfold print_re. rewrite span_all by exact Hd. cbn [skip_opt print_re_tail].
  unfold print_re_tail. cbn [skip_opt span].
  assert (Hc : change_re d = false).
  { destruct d as [|c r]; [reflexivity|]. cbn [all_chars] in Hd.
    apply andb_true_iff in Hd. destruct Hd as [Hc _]. simpl.
    destruct (Ascii.eqb_spec c "c") as [->|]; [discriminate|reflexivity]. }
  rewrite Hc. unfold move_re.
  destruct d as [|c r]; [congruence|]. rewrite Hd.
  unfold parse_usize_unwrap. rewrite (proj2 (N.leb_le _ _) Hv). reflexivity.
Qed.

Lemma parse_p cl ml : parse_command ("p" ++ LF) cl ml = Returns (Print {| start := cl; end_ := cl |}, []).
Proof. reflexivity. Qed.

Lemma parse_c cl ml : parse_command ("c" ++ LF) cl ml = Returns (Change, []).
Proof. reflexivity. Qed.

(** ** The REPL loop *)

Lemma line_len_one_line x : contains_char "010" x = false -> Rope.line_len (x ++ LF) = 1%N.
Proof.
  intros Hx. unfold Rope.line_len. destruct (x ++ LF) eqn:E; [destruct x; discriminate|].
  rewrite <- E, line_breaks_line, ends_with_line by exact Hx. reflexivity.
Qed.

Section ReplFacts.

Variable HL : Type.
Variable highlight_line : HL -> string -> HL * string.

Lemma step_eof h st :
  step HL highlight_line (Some h) st [] = Returns (Continue st [] [], [unknown_command EmptyString]).
Proof. reflexivity. Qed.

Lemma parse_command_change s cl ml e :
  parse_command s cl ml = Returns (Change, e) -> change_re (trim s) = true.
Proof.
  unfold parse_command. set (t := trim s).
  destruct (quit_re t); [discriminate|].
  destruct (print_re t) as [[g1 g3]|].
  - destruct (parse_capture g1) as [v1|]; simpl; [|discriminate].
    destruct (parse_capture g3) as [v3|]; simpl; [|discriminate].
    destruct (ends_with_char "p" t); [discriminate|].
    destruct (ends_with_char "n" t); discriminate.
  - destruct (change_re t); [reflexivity|].
    destruct (move_re t) as [g|]; [|discriminate].
    unfold parse_usize_unwrap. destruct (digits_value 0 g <=? usize_max)%N; discriminate.
Qed.

(** Every command but [c] keeps the buffer and reads no further input. *)
Lemma exec_not_change h st cmd stdin c : cmd <> Change ->
  exec_command HL highlight_line h st cmd stdin = Returns c ->
  c = Break \/ exists st' out, c = Continue st' stdin out /\ content st' = content st.
Proof.
  intros Hc. destruct cmd as [| r | r | l | |]; simpl.
  - intros H; inversion H; subst. left. reflexivity.
  - destruct (sub1_usize (start r)) as [f|]; simpl; [|discriminate].
    destruct (print_lines _ _ _ _ _ _) as [o|]; simpl; [|discriminate].
    intros H; inversion H; subst. right. eauto.
  - destruct (sub1_usize (start r)) as [f|]; simpl; [|discriminate].
    destruct (nprint_lines _ _ _ _ _ _ _) as [o|]; simpl; [|discriminate].
    intros H; inversion H; subst. right. eauto.
  - intros H; inversion H; subst. right. eauto.
  - congruence.
  - intros H; inversion H; subst. right. eauto.
Qed.

Lemma step_keeps_content syntax st stdin c err :
  (forall l, In l stdin -> change_re (trim l) = false) ->
  step HL highlight_line syntax st stdin = Returns (c, err) ->
  c = Break \/ exists st' stdin' out, c = Continue st' stdin' out /\ content st' = content st
    /\ (forall l, In l stdin' -> In l stdin).
Proof.
  intros Hno. unfold step.
  assert (Hin : change_re (trim (fst (read_line stdin))) = false
                /\ forall l, In l (snd (read_line stdin)) -> In l stdin).
  { destruct stdin as [|l rest]; simpl.
    - split; [reflexivity|]. intros l [].
    - split; [apply Hno; left; reflexivity|]. intros x Hx. right. exact Hx. }
  destruct (read_line stdin) as [input stdin'] eqn:Er. simpl in Hin. destruct Hin as [Hc Hsub].
  destruct syntax as [h|]; [|discriminate].
  destruct (parse_command input _ _) as [[cmd e]|] eqn:Ep; simpl; [|discriminate].
  destruct (exec_command HL highlight_line h st cmd stdin') as [c'|] eqn:Ee; simpl; [|discriminate].
  intros H; inversion H; subst c' err.
  assert (Hcmd : cmd <> Change).
  { intros ->. rewrite (parse_command_change _ _ _ _ Ep) in Hc. discriminate. }
  destruct (exec_not_change h st cmd stdin' c Hcmd Ee) as [->|(st' & out & -> & Hst)].
  - left. reflexivity.
  - right. exists st', stdin', out. auto.
Qed.

End ReplFacts.

(** X5: at the end of the input ([read_line] gives [""]) the loop never
    stops: every pass prints the prompt and reports [Unknown command: ] for
    the empty line, with the state unchanged; [n] passes give [n] prompts and
    [n] diagnostics and the loop is still running. *)
Theorem eof_loops_forever (HL : Type) (highlight_line : HL -> string -> HL * string)
  (h : HL) (fuel : nat) (st : BedState) :
  run HL highlight_line (Some h) fuel st []
  = Returns (Suspended st [] (repeat ":" fuel) (repeat (unknown_command EmptyString) fuel)).
Proof.
  induction fuel as [|f IH]; [reflexivity|].
  cbn [run]. rewrite step_eof. cbn [obind]. rewrite IH. reflexivity.
Qed.

(** X6: the buffer is replaced only by [c]: as long as no input line is a
    change command (after trimming), any number of passes of the loop, up to
    a [q] or a panic, leave the buffer as it was. *)
Theorem buffer_changed_only_by_c (HL : Type) (highlight_line : HL -> string -> HL * string)
  (syntax : option HL) (fuel : nat) (st : BedState) (stdin : list string)
  (Hno : forall l, In l stdin -> change_re (trim l) = false) :
  match run HL highlight_line syntax fuel st stdin with
  | Returns res => content (result_state res) = content st
  | Panics => True
  end.
Proof.
  revert st stdin Hno. induction fuel as [|f IH]; intros st stdin Hno; [reflexivity|].
  cbn [run].
  destruct (step HL highlight_line syntax st stdin) as [[c err]|] eqn:Es; cbn [obind]; [|exact I].
  destruct (step_keeps_content HL highlight_line syntax st stdin c err Hno Es)
    as [->|(st' & stdin' & out & -> & Hst & Hsub)]; [reflexivity|].
  specialize (IH st' stdin' (fun l Hl => Hno l (Hsub l Hl))).
  destruct (run HL highlight_line syntax f st' stdin') as [res|]; cbn [obind]; [|exact I].
  rewrite <- Hst. destruct res; exact IH.
Qed.

Lemma buffer_changed_only_by_c_witness :
  (forall l, In l ["2" ++ LF; "p" ++ LF; "q" ++ LF] -> change_re (trim l) = false)
  /\ match run unit plain (Some tt) 3 (init_state abcde) ["2" ++ LF; "p" ++ LF; "q" ++ LF] with
     | Returns res => content (result_state res) = content (init_state abcde)
     | Panics => True
     end.
Proof.
  assert (H : forall l, In l ["2" ++ LF; "p" ++ LF; "q" ++ LF] -> change_re (trim l) = false).
  { intros l [<-|[<-|[<-|[]]]]; reflexivity. }
  split; [exact H|]. exact (buffer_changed_only_by_c unit plain (Some tt) 3 (init_state abcde) _ H).
Defined.

(** X7: a line of digits moves the cursor to the line it names, with no
    bounds check against the buffer; the next [p] then prints that single
    line (rendered, with a line feed, then the style reset) when it exists,
    and panics when the number is [0] or past the last line. *)
Theorem move_then_print (HL : Type) (highlight_line : HL -> string -> HL * string)
  (h : HL) (st : BedState) (d : string) (rest : list string)
  (Hne : d <> EmptyString) (Hd : all_chars is_digit d = true)
  (Hv : (digits_value 0 d <= usize_max)%N) :
  step HL highlight_line (Some h) st ((d ++ LF) :: rest)
  = Returns (Continue {| content := content st; current_line := digits_value 0 d |} rest [], [])
  /\ step HL highlight_line (Some h) {| content := content st; current_line := digits_value 0 d |}
       (("p" ++ LF) :: rest)
     = if ((1 <=? digits_value 0 d) && (digits_value 0 d <=? Rope.line_len (content st)))%N
       then Returns (Continue {| content := content st; current_line := digits_value 0 d |} rest
              [snd (highlight_line h (nth (N.to_nat (digits_value 0 d) - 1) (Rope.lines (content st))
                                        EmptyString)) ++ LF; RESET], [])
       else Panics.
Proof.
  split.
  - unfold step. cbn [read_line]. rewrite parse_move by assumption. reflexivity.
  - unfold step. cbn [read_line]. rewrite parse_p. cbn [obind].
    set (v := digits_value 0 d). cbn [exec_command start end_ content current_line].
    unfold sub1_usize.
    destruct (v =? 0)%N eqn:E0.
    { apply N.eqb_eq in E0. rewrite E0. reflexivity. }
    apply N.eqb_neq in E0. cbn [obind].
    replace (N.to_nat (v - (v - 1))) with 1%nat by lia. cbn [print_lines].
    rewrite (proj2 (N.leb_le 1 v)) by lia. cbn [andb].
    destruct (v <=? Rope.line_len (content st))%N eqn:Ev.
    + apply N.leb_le in Ev. rewrite RopeFacts.line_in_range by lia. cbn [obind].
      replace (N.to_nat (v - 1)) with (N.to_nat v - 1)%nat by lia.
      destruct (highlight_line h _) as [h' e]. reflexivity.
    + apply N.leb_gt in Ev. rewrite RopeFacts.line_out_of_range by lia. reflexivity.
Qed.

Lemma move_then_print_witness :
  ("3" <> EmptyString /\ all_chars is_digit "3" = true /\ (digits_value 0 "3" <= usize_max)%N)
  /\ step unit plain (Some tt) {| content := abcde; current_line := 3 |} (("p" ++ LF) :: [])
     = Returns (Continue {| content := abcde; current_line := 3 |} [] ["c" ++ LF; RESET], []).
Proof.
  assert (H : "3" <> EmptyString /\ all_chars is_digit "3" = true
              /\ (digits_value 0 "3" <= usize_max)%N)
    by (split; [discriminate|split; [reflexivity|vm_compute; discriminate]]).
  split; [exact H|].
  destruct H as (H1 & H2 & H3).
  exact (proj2 (move_then_print unit plain tt {| content := abcde; current_line := 5 |} "3" [] H1 H2 H3)).
Defined.

(** X8: [c] keeps the cursor: after replacing a buffer whose cursor was on
    line 2 or further by a single line, the next [p] asks for a line that no
    longer exists and the program panics. *)
Theorem change_leaves_stale_cursor (HL : Type) (highlight_line : HL -> string -> HL * string)
  (h : HL) (st : BedState) (x : string) (rest : list string)
  (Hx : contains_char "010" x = false) (Hcl : (2 <= current_line st)%N) :
  run HL highlight_line (Some h) 2 st (("c" ++ LF) :: (x ++ LF) :: ("p" ++ LF) :: rest) = Panics.
Proof.
  cbn [run]. unfold step at 1. cbn [read_line]. rewrite parse_c. cbn [obind exec_command read_line].
  unfold step. cbn [read_line current_line content]. rewrite parse_p. cbn [obind exec_command start end_ content].
  rewrite sub1_usize_pos by lia. cbn [obind].
  replace (N.to_nat (current_line st - (current_line st - 1))) with 1%nat by lia.
  cbn [print_lines]. rewrite RopeFacts.line_out_of_range; [reflexivity|].
  rewrite line_len_one_line by exact Hx. lia.
Qed.

Lemma change_leaves_stale_cursor_witness :
  (contains_char "010" "x" = false /\ (2 <= current_line (init_state abcde))%N)
  /\ run unit plain (Some tt) 2 (init_state abcde) (("c" ++ LF) :: ("x" ++ LF) :: ("p" ++ LF) :: []) = Panics.
Proof.
  assert (H : contains_char "010" "x" = false /\ (2 <= current_line (init_state abcde))%N)
    by (split; [reflexivity|vm_compute; discriminate]).
  split; [exact H|].
  exact (change_leaves_stale_cursor unit plain tt (init_state abcde) "x" [] (proj1 H) (proj2 H)).
Defined.

(** ** Ranges *)

Section RangeLoops.

Variable HL : Type.
Variable highlight_line : HL -> string -> HL * string.

Lemma print_lines_past_end text : forall count h i,
  (0 < count)%nat -> (N.to_nat (Rope.line_len text) < N.to_nat i + count)%nat ->
  print_lines HL highlight_line h text i count = Panics.
Proof.
  induction count as [|k IH]; intros h i Hk Hlt; [lia|].
  cbn [print_lines].
  destruct (N.lt_ge_cases i (Rope.line_len text)) as [Hi|Hi].
  - rewrite RopeFacts.line_in_range by exact Hi. cbn [obind].
    destruct (highlight_line h _) as [h' e].
    rewrite IH by lia. reflexivity.
  - rewrite RopeFacts.line_out_of_range by exact Hi. reflexivity.
Qed.

Lemma nprint_lines_past_end text width : forall count h i,
  (0 < count)%nat -> (N.to_nat (Rope.line_len text) < N.to_nat i + count)%nat ->
  nprint_lines HL highlight_line h text width i count = Panics.
Proof.
  induction count as [|k IH]; intros h i Hk Hlt; [lia|].
  cbn [nprint_lines].
  destruct (N.lt_ge_cases i (Rope.line_len text)) as [Hi|Hi].
  - rewrite RopeFacts.line_in_range by exact Hi. cbn [obind].
    destruct (highlight_line h _) as [h' e].
    rewrite IH by lia. reflexivity.
  - rewrite RopeFacts.line_out_of_range by exact Hi. reflexivity.
Qed.

End RangeLoops.

(** X9: a range whose end is before its start (start at least 1) is not an
    error: [Print] only resets the style and [NPrint] prints nothing; the
    state and the input are untouched. *)
Theorem reversed_range_prints_nothing (HL : Type) (highlight_line : HL -> string -> HL * string)
  (h : HL) (st : BedState) (r : Range) (stdin : list string)
  (H1 : (1 <= start r)%N) (H2 : (end_ r < start r)%N) :
  exec_command HL highlight_line h st (Print r) stdin = Returns (Continue st stdin [RESET])
  /\ exec_command HL highlight_line h st (NPrint r) stdin = Returns (Continue st stdin []).
Proof.
  cbn [exec_command]. rewrite sub1_usize_pos by exact H1. cbn [obind].
  replace (N.to_nat (end_ r - (start r - 1))) with 0%nat by lia.
  split; reflexivity.
Qed.

Lemma reversed_range_prints_nothing_witness :
  ((1 <= 4)%N /\ (2 < 4)%N)
  /\ exec_command unit plain tt (init_state abcde) (Print {| start := 4; end_ := 2 |}) []
     = Returns (Continue (init_state abcde) [] [RESET]).
Proof.
  assert (H : (1 <= 4)%N /\ (2 < 4)%N) by (split; lia).
  split; [exact H|].
  exact (proj1 (reversed_range_prints_nothing unit plain tt (init_state abcde)
                  {| start := 4; end_ := 2 |} [] (proj1 H) (proj2 H))).
Defined.

(** X10: a non-empty range (start at least 1) that ends past the last line
    makes both [Print] and [NPrint] panic, at the first missing line. *)
Theorem range_past_end_panics (HL : Type) (highlight_line : HL -> string -> HL * string)
  (h : HL) (st : BedState) (r : Range) (stdin : list string)
  (H1 : (1 <= start r)%N) (H2 : (start r <= end_ r)%N)
  (H3 : (Rope.line_len (content st) < end_ r)%N) :
  exec_command HL highlight_line h st (Print r) stdin = Panics
  /\ exec_command HL highlight_line h st (NPrint r) stdin = Panics.
Proof.
  cbn [exec_command]. rewrite sub1_usize_pos by exact H1. cbn [obind].
  rewrite print_lines_past_end, nprint_lines_past_end by lia. split; reflexivity.
Qed.

Lemma range_past_end_panics_witness :
  ((1 <= 4)%N /\ (4 <= 6)%N /\ (Rope.line_len (content (init_state abcde)) < 6)%N)
  /\ exec_command unit plain tt (init_state abcde) (NPrint {| start := 4; end_ := 6 |}) [] = Panics.
Proof.
  assert (H : (1 <= 4)%N /\ (4 <= 6)%N /\ (Rope.line_len (content (init_state abcde)) < 6)%N)
    by (split; [lia|split; [lia|vm_compute; reflexivity]]).
  split; [exact H|].
  destruct H as (Ha & Hb & Hc).
  exact (proj2 (range_past_end_panics unit plain tt (init_state abcde)
                  {| start := 4; end_ := 6 |} [] Ha Hb Hc)).
Defined.

(** ** Two numbers without a comma *)

Lemma digits_no_comma d : all_chars is_digit d = true -> contains_char "," d = false.
Proof.
  induction d as [|c d IH]; intros Hd; [reflexivity|].
  cbn [all_chars] in Hd. apply andb_true_iff in Hd. destruct Hd as [Hc Hd].
  cbn [contains_char]. rewrite Ascii.eqb_sym, (digit_not_comma c Hc). apply IH. exact Hd.
Qed.

Lemma quit_re_digit_head c s : is_digit c = true -> quit_re (String c s) = false.
Proof.
  intros Hc. unfold quit_re.
  destruct (String.eqb_spec (String c s) "q") as [E|]; [inversion E; subst; discriminate|].
  destruct (String.eqb_spec (String c s) "quit") as [E|]; [inversion E; subst; discriminate|reflexivity].
Qed.

(** X11: two numbers separated by a blank and followed by [p], without a
    comma, print the single line named by the first number: the second
    number is captured and parsed (so a second number too large for
    [usize] still panics) but then ignored. *)
Theorem blank_separated_second_number_ignored (a b : string) (cl ml : N)
  (Ha : a <> EmptyString) (Hb : b <> EmptyString)
  (Hda : all_chars is_digit a = true) (Hdb : all_chars is_digit b = true)
  (Hva : (digits_value 0 a <= usize_max)%N) :
  parse_command (a ++ " " ++ b ++ "p") cl ml
  = if (digits_value 0 b <=? usize_max)%N
    then Returns (Print {| start := digits_value 0 a; end_ := digits_value 0 a |}, [])
    else Panics.
Proof.
  unfold parse_command.
  assert (Ht : trim (a ++ " " ++ b ++ "p") = a ++ " " ++ b ++ "p").
  { rewrite <- (str_app_nil_r (a ++ " " ++ b ++ "p")) at 1.
    apply trim_app_ws; [reflexivity| |].
    - destruct a as [|c a']; [congruence|]. cbn [all_chars] in Hda.
      apply andb_true_iff in Hda. simpl. apply digit_not_ws. apply Hda.
    - intros c l E.
      replace (a ++ " " ++ b ++ "p") with ((a ++ " " ++ b) ++ "p") in E
        by (rewrite !str_app_assoc; reflexivity).
      rewrite list_ascii_of_string_app, rev_app_distr in E. simpl in E.
      inversion E; subst. reflexivity. }
  rewrite Ht.
  destruct a as [|ca a']; [congruence|].
  assert (Hca : is_digit ca = true)
    by (cbn [all_chars] in Hda; apply andb_true_iff in Hda; apply Hda).
  change (String ca a' ++ " " ++ b ++ "p") with (String ca (a' ++ " " ++ b ++ "p")).
  rewrite quit_re_digit_head by exact Hca.
  change (String ca (a' ++ " " ++ b ++ "p")) with (String ca a' ++ " " ++ b ++ "p").
  set (a := String ca a') in *.
  unfold print_re. rewrite span_app by exact Hda.
  change (span is_digit (" " ++ b ++ "p")) with (EmptyString, " " ++ b ++ "p").
  cbn [fst snd]. rewrite str_app_nil_r.
  change (skip_opt (fun c => Ascii.eqb c ",") (" " ++ b ++ "p")) with (" " ++ b ++ "p").
  unfold print_re_tail.
  change (skip_opt is_ws (" " ++ b ++ "p")) with (b ++ "p").
  rewrite span_app by exact Hdb.
  change (span is_digit "p") with (EmptyString, "p").
  cbn [fst snd]. rewrite str_app_nil_r.
  change (skip_opt is_ws "p") with "p". cbv [is_pn Ascii.eqb Bool.eqb andb orb].
  replace (opt_capture a) with (Some a) by (subst a; reflexivity).
  replace (opt_capture b) with (Some b) by (destruct b; [congruence|reflexivity]).
  cbn [parse_capture]. unfold parse_usize_unwrap at 1.
  rewrite (proj2 (N.leb_le _ _) Hva). cbn [obind].
  unfold parse_usize_unwrap.
  destruct (digits_value 0 b <=? usize_max)%N; cbn [obind]; [|reflexivity].
  rewrite !contains_char_app, digits_no_comma by exact Hda.
  rewrite (digits_no_comma b Hdb). cbn [orb contains_char].
  replace (ends_with_char "p" (a ++ " " ++ b ++ "p")) with true; [reflexivity|].
  replace (a ++ " " ++ b ++ "p") with ((a ++ " " ++ b) ++ "p")
    by (rewrite !str_app_assoc; reflexivity).
  symmetry. apply ends_with_char_snoc.
Qed.

Lemma blank_separated_second_number_ignored_witness :
  ("3" <> EmptyString /\ "5" <> EmptyString /\ all_chars is_digit "3" = true
   /\ all_chars is_digit "5" = true /\ (digits_value 0 "3" <= usize_max)%N)
  /\ parse_command "3 5p" 4 10 = Returns (Print {| start := 3; end_ := 3 |}, []).
Proof.
  assert (H : "3" <> EmptyString /\ "5" <> EmptyString /\ all_chars is_digit "3" = true
              /\ all_chars is_digit "5" = true /\ (digits_value 0 "3" <= usize_max)%N)
    by (repeat split; try discriminate; try reflexivity; vm_compute; discriminate).
  split; [exact H|].
  destruct H as (H1 & H2 & H3 & H4 & H5).
  exact (blank_separated_second_number_ignored "3" "5" 4 10 H1 H2 H3 H4 H5).
Defined.

(** ** Surrounding whitespace *)

Lemma trim_start_head s : head_not is_ws (trim_start s).
Proof.
  induction s as [|c s IH]; [exact I|]. simpl.
  destruct (is_ws c) eqn:E; [exact IH|exact E].
Qed.

Lemma trim_start_idem s : trim_start (trim_start s) = trim_start s.
Proof.
  pose proof (trim_start_head s) as H. destruct (trim_start s) as [|c r]; [reflexivity|].
  simpl in *. rewrite H. reflexivity.
Qed.

Lemma trim_start_split : forall s, exists w, all_chars is_ws w = true /\ s = w ++ trim_start s.
Proof.
  induction s as [|c s IH]; [exists EmptyString; split; reflexivity|].
  simpl. destruct (is_ws c) eqn:E.
  - destruct IH as [w [Hw Hs]]. exists (String c w). simpl. rewrite E, Hw.
    split; [reflexivity|]. rewrite <- Hs. reflexivity.
  - exists EmptyString. split; reflexivity.
Qed.

Lemma string_of_list_ascii_app : forall l1 l2,
  string_of_list_ascii (l1 ++ l2)%list = string_of_list_ascii l1 ++ string_of_list_ascii l2.
Proof. induction l1 as [|c l1 IH]; intros l2; simpl; [reflexivity|now rewrite IH]. Qed.

Lemma rev_string_involutive x :
  string_of_list_ascii (rev (list_ascii_of_string
    (string_of_list_ascii (rev (list_ascii_of_string x))))) = x.
Proof.
  rewrite list_ascii_of_string_of_list_ascii, rev_involutive. apply string_of_list_ascii_of_string.
Qed.

Lemma rev_string_app x y :
  string_of_list_ascii (rev (list_ascii_of_string (x ++ y)))
  = string_of_list_ascii (rev (list_ascii_of_string y))
    ++ string_of_list_ascii (rev (list_ascii_of_string x)).
Proof.
  rewrite list_ascii_of_string_app, rev_app_distr. apply string_of_list_ascii_app.
Qed.

Lemma all_chars_rev_string p x : all_chars p x = true ->
  all_chars p (string_of_list_ascii (rev (list_ascii_of_string x))) = true.
Proof.
  induction x as [|c x IH]; intros H; [reflexivity|].
  cbn [all_chars] in H. apply andb_true_iff in H. destruct H as [Hc H].
  cbn [list_ascii_of_string rev]. rewrite string_of_list_ascii_app, all_chars_app, IH by exact H.
  simpl. rewrite Hc. reflexivity.
Qed.

Lemma trim_end_idem u : trim_end (trim_end u) = trim_end u.
Proof. unfold trim_end. rewrite rev_string_involutive, trim_start_idem. reflexivity. Qed.

Lemma trim_start_trim_end u : head_not is_ws u -> trim_start (trim_end u) = trim_end u.
Proof.
  intros Hu.
  destruct (trim_start_split (string_of_list_ascii (rev (list_ascii_of_string u)))) as [w [Hw Hs]].
  assert (Hu' : u = trim_end u ++ string_of_list_ascii (rev (list_ascii_of_string w))).
  { unfold trim_end. rewrite <- rev_string_app, <- Hs. symmetry. apply rev_string_involutive. }
  destruct (trim_end u) as [|c m] eqn:E; [reflexivity|].
  rewrite Hu' in Hu. simpl in Hu. simpl. rewrite Hu. reflexivity.
Qed.

Lemma trim_idem s : trim (trim s) = trim s.
Proof.
  unfold trim. rewrite trim_start_trim_end by apply trim_start_head. apply trim_end_idem.
Qed.

Lemma trim_start_ws_app w s : all_chars is_ws w = true -> trim_start (w ++ s) = trim_start s.
Proof.
  induction w as [|c w IH]; intros Hw; [reflexivity|].
  cbn [all_chars] in Hw. apply andb_true_iff in Hw. destruct Hw as [Hc Hw].
  simpl. rewrite Hc. apply IH. exact Hw.
Qed.

Lemma trim_start_app s t :
  trim_start (s ++ t) = match trim_start s with EmptyString => trim_start t | u => u ++ t end.
Proof.
  induction s as [|c s IH]; [reflexivity|].
  simpl. destruct (is_ws c); [exact IH|reflexivity].
Qed.

Lemma trim_end_app_ws_any x w : all_chars is_ws w = true -> trim_end (x ++ w) = trim_end x.
Proof.
  intros Hw. unfold trim_end. rewrite rev_string_app, trim_start_ws_app; [reflexivity|].
  apply all_chars_rev_string. exact Hw.
Qed.

Lemma trim_ws_around w1 s w2 : all_chars is_ws w1 = true -> all_chars is_ws w2 = true ->
  trim (w1 ++ s ++ w2) = trim s.
Proof.
  intros H1 H2. unfold trim. rewrite trim_start_ws_app by exact H1.
  rewrite trim_start_app.
  destruct (trim_start s) as [|c u] eqn:E.
  - assert (Hw : trim_start w2 = EmptyString).
    { clear E. induction w2 as [|d w2 IH]; [reflexivity|].
      cbn [all_chars] in H2. apply andb_true_iff in H2. destruct H2 as [Hd H2].
      simpl. rewrite Hd. apply IH. exact H2. }
    rewrite Hw. reflexivity.
  - apply trim_end_app_ws_any. exact H2.
Qed.

(** X12: whitespace around a command never matters: [parse_command] gives
    the same command (and the same diagnostics) whatever blanks, tabs or
    line breaks surround the input, and the same on the input as on the
    input trimmed. *)
Theorem parse_command_ignores_surrounding_ws (w1 s w2 : string) (cl ml : N)
  (H1 : all_chars is_ws w1 = true) (H2 : all_chars is_ws w2 = true) :
  parse_command (w1 ++ s ++ w2) cl ml = parse_command s cl ml
  /\ parse_command s cl ml = parse_command (trim s) cl ml.
Proof.
  split.
  - unfold parse_command. rewrite trim_ws_around by assumption. reflexivity.
  - unfold parse_command. rewrite trim_idem. reflexivity.
Qed.

Lemma parse_command_ignores_surrounding_ws_witness :
  (all_chars is_ws "  " = true /\ all_chars is_ws LF = true)
  /\ parse_command ("  " ++ "2,3n" ++ LF) 1 5 = parse_command "2,3n" 1 5.
Proof.
  assert (H : all_chars is_ws "  " = true /\ all_chars is_ws LF = true) by (split; reflexivity).
  split; [exact H|].
  exact (proj1 (parse_command_ignores_surrounding_ws "  " "2,3n" LF 1 5 (proj1 H) (proj2 H))).
Defined.

(** X13: a quit line ([q] or [quit], whitespace around allowed) ends the
    loop in the pass that reads it: only the prompt is printed, the state is
    left as it was (nothing is saved) and the lines after it are never read. *)
Theorem quit_ends_loop (HL : Type) (highlight_line : HL -> string -> HL * string)
  (h : HL) (fuel : nat) (st : BedState) (l : string) (rest : list string)
  (Hq : quit_re (trim l) = true) :
  run HL highlight_line (Some h) (S fuel) st (l :: rest) = Returns (Quitted st [":"] []).
Proof.
  cbn [run]. unfold step. cbn [read_line].
  replace (parse_command l (current_line st) (Rope.line_len (content st)))
    with (Returns (Quit, @nil string))
    by (symmetry; apply parse_command_quit; split; [exact Hq|reflexivity]).
  reflexivity.
Qed.

Lemma quit_ends_loop_witness :
  quit_re (trim (" quit" ++ LF)) = true
  /\ run unit plain (Some tt) 4 (init_state abcde) [" quit" ++ LF; "p" ++ LF]
     = Returns (Quitted (init_state abcde) [":"] []).
Proof.
  assert (H : quit_re (trim (" quit" ++ LF)) = true) by reflexivity.
  split; [exact H|]. exact (quit_ends_loop unit plain tt 3 (init_state abcde) _ _ H).
Defined.
